(** * ivan-ads-manager: the automation rules engine

    A shallow embedding of the class [AutomationEngine] (the engine that
    src/web/server.ts imports from automation/engine and drives through
    its /api/automations routes), of the part of [SlackNotifier] the engine
    calls (src/notifications/slack.ts), and the properties of the engine
    that the specification states.

    Conventions of the embedding:
    - a JavaScript [Map<string, V>] is a [gmap string V]; the insertion
      order in which a [Map] is iterated is not represented, and no
      statement below depends on it;
    - a JavaScript number is a [number]: NaN, the two infinities, or a
      finite value given by the rational it denotes.  Comparisons of
      doubles agree with comparisons of the rationals they denote;
    - an optional field [f?: T] is an [option T], [None] being [undefined];
    - an instant ([Date.now()], [new Date()]) is its number of milliseconds
      since the epoch, a [Z]; [toISOString] is not applied;
    - [async] methods are run to completion, one after the other: the
      interleaving of two fires, or of a fire with an API call, is not
      represented;
    - the Meta client, the file system and the clock are a [World] that is
      fixed for the duration of one call: within a call the same request
      gets the same answer; node-cron and the string and number builtins
      are a [Host];
    - informational [console.log] lines are left out, [console.error]
      lines are events of the trace. *)

From Stdlib Require Import QArith.
From Stdlib Require Import Ascii String.
From stdpp Require Import base strings list gmap pretty.

Local Open Scope string_scope.
Local Open Scope Z_scope.

(** ** JavaScript values used by the engine *)

Inductive number :=
| NaN
| NegInfinity
| Finite (q : Q)
| Infinity.

Definition num_of_Z (z : Z) : number := Finite (inject_Z z).

(** [a < b] on numbers: false as soon as one side is NaN. *)
Definition num_lt (a b : number) : bool :=
  match a, b with
  | NaN, _ | _, NaN => false
  | NegInfinity, NegInfinity => false
  | NegInfinity, _ => true
  | Finite _, NegInfinity => false
  | Finite x, Finite y => negb (Qle_bool y x)
  | Finite _, Infinity => true
  | Infinity, _ => false
  end.

(** [a > b]. *)
Definition num_gt (a b : number) : bool := num_lt b a.

(** [a <= b]. *)
Definition num_le (a b : number) : bool :=
  match a, b with
  | NaN, _ | _, NaN => false
  | NegInfinity, _ => true
  | Finite _, NegInfinity => false
  | Finite x, Finite y => Qle_bool x y
  | Finite _, Infinity => true
  | Infinity, Infinity => true
  | Infinity, _ => false
  end.

(** [a === b] on numbers: NaN differs from everything, itself included. *)
Definition num_strict_eq (a b : number) : bool :=
  match a, b with
  | NegInfinity, NegInfinity => true
  | Finite x, Finite y => Qeq_bool x y
  | Infinity, Infinity => true
  | _, _ => false
  end.

(** Truthiness of a number: every number but NaN and zero. *)
Definition num_truthy (a : number) : bool :=
  match a with
  | NaN => false
  | Finite q => negb (Qeq_bool q 0)
  | NegInfinity | Infinity => true
  end.

Definition num_neg (a : number) : number :=
  match a with
  | NaN => NaN
  | NegInfinity => Infinity
  | Finite q => Finite (Qopp q)
  | Infinity => NegInfinity
  end.

(** [a * b]; the overflow of a finite product to an infinity is not
    represented. *)
Definition num_mul (a b : number) : number :=
  match a, b with
  | NaN, _ | _, NaN => NaN
  | Finite x, Finite y => Finite (Qmult x y)
  | Finite x, i | i, Finite x =>
      if Qeq_bool x 0 then NaN
      else if Qle_bool 0 x then i else num_neg i
  | Infinity, Infinity | NegInfinity, NegInfinity => Infinity
  | Infinity, NegInfinity | NegInfinity, Infinity => NegInfinity
  end.

(** An optional number used as an operand: [undefined] converts to NaN. *)
Definition operand (o : option number) : number := default NaN o.

(** Truthiness of an optional string: defined and not empty. *)
Definition str_truthy (o : option string) : bool :=
  match o with
  | Some s => negb (bool_decide (s = ""))
  | None => false
  end.

(** [s.includes(sub)]. *)
Fixpoint includes (s sub : string) : bool :=
  String.prefix sub s ||
  match s with
  | EmptyString => false
  | String _ s' => includes s' sub
  end.

(** The double quote character, for the message templates. *)
Definition dq : string := String (Ascii.ascii_of_nat 34) "".

(** What a template literal prints for a possibly missing string. *)
Definition shown (o : option string) : string := default "undefined" o.

(** ** Data model *)

(** [AutomationRule["trigger"]]. *)
Record Trigger := {
  trigger_type : string;
  cron : option string;
  metric : option string;
  operator : option string;
  value : option number;
  checkInterval : option number
}.

(** [AutomationRule["conditions"]]. *)
Record Conditions := {
  campaignStatus : option string;
  campaignNameContains : option string;
  minSpend : option number;
  maxSpend : option number
}.

(** [AutomationRule["actions"][0]]. *)
Record Action := {
  action_type : string;
  budgetChange : option number;
  notifyMessage : option string
}.

Record AutomationRule := {
  rule_id : string;
  rule_name : string;
  accountId : string;
  enabled : bool;
  trigger : Trigger;
  conditions : Conditions;
  actions : list Action;
  createdAt : Z;
  lastRunAt : option Z
}.

(** [Omit<AutomationRule, "id" | "createdAt">], the argument of [addRule]. *)
Record RuleData := {
  data_name : string;
  data_accountId : string;
  data_enabled : bool;
  data_trigger : Trigger;
  data_conditions : Conditions;
  data_actions : list Action;
  data_lastRunAt : option Z
}.

(** A campaign as [getCampaigns] returns it ([any] in the source): the
    fields the engine reads, and the spend the provider reports for it, if
    any, which the engine does not read. *)
Record Campaign := {
  camp_id : string;
  camp_name : option string;
  camp_status : string;
  camp_spend : option number
}.

(** One insights row: the metric fields by name, as the Graph API sends
    them (strings). *)
Definition Insight := gmap string string.

(** ** The world around the engine *)

(** Builtins and libraries whose result is a function of their arguments. *)
Record Host := {
  (** [String.prototype.toLowerCase] *)
  toLowerCase : string → string;
  (** [parseFloat] on a string *)
  parseFloatStr : string → number;
  (** [s.replace(pattern, replacement)] with a string pattern *)
  replace : string → string → string → string;
  (** whether node-cron's [cron.schedule] accepts the expression; it throws
      otherwise *)
  cronAccepts : string → bool
}.

(** A promise of the Meta client: rejected, or resolved with a result whose
    [data] field may be missing. *)
Inductive Response (A : Type) :=
| Rejects
| Resolves (data : option A).
Arguments Rejects {A}.
Arguments Resolves {A} data.

(** What the outside answers during one call of a public method: the Meta
    client ([getCampaigns], [getInsights], [updateCampaign]), the file
    system, the clock and the random generator. *)
Record World := {
  getCampaigns : string → Response (list Campaign);
  (** by campaign id and requested field *)
  getInsights : string → string → Response (list Insight);
  (** by campaign id and new status: [true] when the update goes through *)
  updateCampaign : string → string → bool;
  (** whether [mkdirSync]/[writeFileSync] go through *)
  writeFileSync : bool;
  Date_now : Z;
  new_Date : Z;
  (** [Math.random().toString(36).substr(2, 9)] *)
  Math_random : string
}.

(** data/automations.json *)
Inductive DataFile :=
| Missing
| Corrupt
| Stored (rs : list AutomationRule).

(** A node-cron task and an interval timer, with the handle of the armed
    timer, its period, and the rule its callback executes. *)
Record ScheduledTask := {
  task_handle : nat;
  task_cron : string;
  task_rule : string
}.

Record Timeout := {
  timeout_handle : nat;
  timeout_ms : number;
  timeout_rule : string
}.

(** The engine object ([rules], [cronJobs], [intervalJobs],
    [slackNotifier]) and the part of the process it acts on: the armed
    timers of the runtime, each with the id of the rule it fires, the next
    free timer handle, and the data file. *)
Record Engine := {
  rules : gmap string AutomationRule;
  cronJobs : gmap string ScheduledTask;
  intervalJobs : gmap string Timeout;
  slackNotifier : bool;
  armed : gmap nat string;
  next_handle : nat;
  dataFile : DataFile
}.

Definition with_rules (f : gmap string AutomationRule → gmap string AutomationRule)
    (st : Engine) : Engine :=
  {| rules := f (rules st); cronJobs := cronJobs st;
     intervalJobs := intervalJobs st; slackNotifier := slackNotifier st;
     armed := armed st; next_handle := next_handle st;
     dataFile := dataFile st |}.

Definition with_cronJobs (f : gmap string ScheduledTask → gmap string ScheduledTask)
    (st : Engine) : Engine :=
  {| rules := rules st; cronJobs := f (cronJobs st);
     intervalJobs := intervalJobs st; slackNotifier := slackNotifier st;
     armed := armed st; next_handle := next_handle st;
     dataFile := dataFile st |}.

Definition with_intervalJobs (f : gmap string Timeout → gmap string Timeout)
    (st : Engine) : Engine :=
  {| rules := rules st; cronJobs := cronJobs st;
     intervalJobs := f (intervalJobs st); slackNotifier := slackNotifier st;
     armed := armed st; next_handle := next_handle st;
     dataFile := dataFile st |}.

Definition with_armed (f : gmap nat string → gmap nat string)
    (st : Engine) : Engine :=
  {| rules := rules st; cronJobs := cronJobs st;
     intervalJobs := intervalJobs st; slackNotifier := slackNotifier st;
     armed := f (armed st); next_handle := next_handle st;
     dataFile := dataFile st |}.

Definition with_dataFile (d : DataFile) (st : Engine) : Engine :=
  {| rules := rules st; cronJobs := cronJobs st;
     intervalJobs := intervalJobs st; slackNotifier := slackNotifier st;
     armed := armed st; next_handle := next_handle st;
     dataFile := d |}.

(** Arming a timer for a rule takes the next handle. *)
Definition arm (rule : string) (st : Engine) : Engine :=
  {| rules := rules st; cronJobs := cronJobs st;
     intervalJobs := intervalJobs st; slackNotifier := slackNotifier st;
     armed := <[next_handle st := rule]> (armed st);
     next_handle := S (next_handle st);
     dataFile := dataFile st |}.

(** [new AutomationEngine(metaClient, slackNotifier)] in a process whose
    data file is [d]. *)
Definition new_engine (slack : bool) (d : DataFile) : Engine :=
  {| rules := ∅; cronJobs := ∅; intervalJobs := ∅; slackNotifier := slack;
     armed := ∅; next_handle := O; dataFile := d |}.

(** [Array.from(map.values())]. *)
Definition values {V} (m : gmap string V) : list V := (map_to_list m).*2.

(** ** Effects: a trace of calls, the engine state, exceptions *)

Inductive ErrorLine :=
| ErrLoading
| ErrSaving
| ErrScheduling (name : string)
| ErrCheckingInsights (campaign : string)
| ErrExecutingRule (name : string).

Inductive Event :=
| CallGetCampaigns (account : string)
| CallGetInsights (campaign field : string)
| CallUpdateCampaign (campaign status : string)
| SlackAlert (kind title message : string)
| ConsoleError (line : ErrorLine).

Inductive Exn :=
| UpstreamFailure
| TypeError
| FsFailure
| CronFailure.

Inductive Completion (A : Type) :=
| Normal (a : A)
| Throw (e : Exn).
Arguments Normal {A} a.
Arguments Throw {A} e.

Definition M (A : Type) : Type := Engine → list Event * Engine * Completion A.

Definition ret {A} (a : A) : M A := λ st, ([], st, Normal a).

Definition bind {A B} (m : M A) (f : A → M B) : M B := λ st,
  match m st with
  | (t, st', Normal a) =>
      match f a st' with
      | (t', st'', c) => ((t ++ t')%list, st'', c)
      end
  | (t, st', Throw e) => (t, st', Throw e)
  end.

Definition throw {A} (e : Exn) : M A := λ st, ([], st, Throw e).

(** [try { m } catch (error) { h error }] *)
Definition try_catch {A} (m : M A) (h : Exn → M A) : M A := λ st,
  match m st with
  | (t, st', Throw e) =>
      match h e st' with
      | (t', st'', c) => ((t ++ t')%list, st'', c)
      end
  | r => r
  end.

Definition emit (ev : Event) : M unit := λ st, ([ev], st, Normal tt).
Definition get : M Engine := λ st, ([], st, Normal st).
Definition modify (f : Engine → Engine) : M unit := λ st, ([], f st, Normal tt).

Declare Scope engine_scope.
Delimit Scope engine_scope with M.
Notation "x <- m ;; k" := (bind m (λ x, k))
  (at level 100, m at next level, k at level 200, right associativity) : engine_scope.
Notation "m ;; k" := (bind m (λ _, k))
  (at level 100, k at level 200, right associativity) : engine_scope.
Local Open Scope engine_scope.

(** [for (const x of l) { await f(x) }] *)
Fixpoint for_each {A} (l : list A) (f : A → M unit) : M unit :=
  match l with
  | [] => ret tt
  | x :: l' => f x ;; for_each l' f
  end.

Definition console_error (line : ErrorLine) : M unit := emit (ConsoleError line).

Definition trace_of {A} (r : list Event * Engine * Completion A) : list Event := r.1.1.
Definition state_of {A} (r : list Event * Engine * Completion A) : Engine := r.1.2.
Definition completion_of {A} (r : list Event * Engine * Completion A) : Completion A := r.2.

(** ** The collaborators as the engine calls them *)

Definition meta_getCampaigns (w : World) (account : string) : M (option (list Campaign)) :=
  emit (CallGetCampaigns account) ;;
  match getCampaigns w account with
  | Rejects => throw UpstreamFailure
  | Resolves data => ret data
  end.

Definition meta_getInsights (w : World) (campaign field : string) : M (option (list Insight)) :=
  emit (CallGetInsights campaign field) ;;
  match getInsights w campaign field with
  | Rejects => throw UpstreamFailure
  | Resolves data => ret data
  end.

Definition meta_updateCampaign (w : World) (campaign status : string) : M unit :=
  emit (CallUpdateCampaign campaign status) ;;
  if updateCampaign w campaign status then ret tt else throw UpstreamFailure.

(** [SlackNotifier.sendAlert]: posts the alert and swallows every failure
    of the webhook (slack.ts, the try/catch around [fetch]). *)
Definition sendAlert (kind title message : string) : M unit :=
  emit (SlackAlert kind title message).

(** [fs.mkdirSync] and [fs.writeFileSync] of the serialised rules. *)
Definition fs_writeFileSync (w : World) (rs : list AutomationRule) : M unit := λ st,
  if writeFileSync w then ([], with_dataFile (Stored rs) st, Normal tt)
  else ([], st, Throw FsFailure).

(** [cron.schedule(expr, callback)]: arms a task, or throws on an
    expression node-cron rejects. *)
Definition cron_schedule (h : Host) (expr rule : string) : M ScheduledTask := λ st,
  if cronAccepts h expr
  then ([], arm rule st,
        Normal {| task_handle := next_handle st; task_cron := expr; task_rule := rule |})
  else ([], st, Throw CronFailure).

(** [setInterval(callback, ms)]. *)
Definition setInterval (ms : number) (rule : string) : M Timeout := λ st,
  ([], arm rule st,
   Normal {| timeout_handle := next_handle st; timeout_ms := ms; timeout_rule := rule |}).

(** [cronJob.stop()]. *)
Definition task_stop (job : ScheduledTask) : M unit :=
  modify (with_armed (delete (task_handle job))).

(** [clearInterval(job)]. *)
Definition clearInterval (job : Timeout) : M unit :=
  modify (with_armed (delete (timeout_handle job))).

(** ** AutomationEngine: private methods *)

Definition loadRules : M unit :=
  try_catch
    (st <- get ;;
     match dataFile st with
     | Missing => ret tt
     | Corrupt => throw TypeError
     | Stored rs =>
         for_each rs (λ rule, modify (with_rules <[rule_id rule := rule]>))
     end)
    (λ _, console_error ErrLoading).

Definition saveRules (w : World) : M unit :=
  try_catch
    (st <- get ;;
     fs_writeFileSync w (values (rules st)))
    (λ _, console_error ErrSaving).

Definition unscheduleRule (ruleId : string) : M unit :=
  st <- get ;;
  match cronJobs st !! ruleId with
  | Some cronJob =>
      task_stop cronJob ;;
      modify (with_cronJobs (delete ruleId))
  | None => ret tt
  end ;;
  st <- get ;;
  match intervalJobs st !! ruleId with
  | Some intervalJob =>
      clearInterval intervalJob ;;
      modify (with_intervalJobs (delete ruleId))
  | None => ret tt
  end.

Definition scheduleRule (h : Host) (rule : AutomationRule) : M unit :=
  unscheduleRule (rule_id rule) ;;
  if negb (enabled rule) then ret tt
  else if bool_decide (trigger_type (trigger rule) = "schedule")
          && str_truthy (cron (trigger rule)) then
    try_catch
      (job <- cron_schedule h (default "" (cron (trigger rule))) (rule_id rule) ;;
       modify (with_cronJobs <[rule_id rule := job]>))
      (λ _, console_error (ErrScheduling (rule_name rule)))
  else if bool_decide (trigger_type (trigger rule) = "threshold")
          && num_truthy (operand (checkInterval (trigger rule))) then
    let intervalMs :=
      num_mul (num_mul (operand (checkInterval (trigger rule))) (num_of_Z 60))
              (num_of_Z 1000) in
    job <- setInterval intervalMs (rule_id rule) ;;
    modify (with_intervalJobs <[rule_id rule := job]>)
  else ret tt.

Definition scheduleAllRules (h : Host) : M unit :=
  st <- get ;;
  for_each (values (rules st))
    (λ rule, if enabled rule then scheduleRule h rule else ret tt).

(** The callback of [campaigns.filter] in [executeRule], in its two
    early returns. *)
Definition status_rejects (rule : AutomationRule) (campaign : Campaign) : bool :=
  str_truthy (campaignStatus (conditions rule))
  && negb (bool_decide (campaignStatus (conditions rule) = Some "ANY"))
  && negb (bool_decide (Some (camp_status campaign) = campaignStatus (conditions rule))).

Definition name_rejects (h : Host) (rule : AutomationRule) (campaign : Campaign) : bool :=
  str_truthy (campaignNameContains (conditions rule))
  && negb match camp_name campaign with
          | Some n =>
              includes (toLowerCase h n)
                (toLowerCase h (default "" (campaignNameContains (conditions rule))))
          | None => false
          end.

Definition conditions_filter (h : Host) (rule : AutomationRule) (campaign : Campaign) : bool :=
  if status_rejects rule campaign then false
  else if name_rejects h rule campaign then false
  else true.

Definition checkThreshold (v : number) (op : option string) (threshold : option number) : bool :=
  if bool_decide (op = Some "gt") then num_gt v (operand threshold)
  else if bool_decide (op = Some "lt") then num_lt v (operand threshold)
  else if bool_decide (op = Some "eq") then num_strict_eq v (operand threshold)
  else false.

(** [parseFloat(x)] for a field that may be missing. *)
Definition parseFloat (h : Host) (x : option string) : number :=
  match x with
  | Some s => parseFloatStr h s
  | None => NaN
  end.

(** [n || 0]. *)
Definition or_zero (n : number) : number :=
  if num_truthy n then n else num_of_Z 0.

(** [parseFloat(insights[0][metric]) || 0]. *)
Definition metricValue (h : Host) (field : string) (row : Insight) : number :=
  or_zero (parseFloat h (row !! field)).

(** The body of the loop over [matchingCampaigns]: whether the campaign is
    pushed on [triggeredCampaigns]. *)
Definition thresholdMet (h : Host) (w : World) (rule : AutomationRule)
    (field : string) (campaign : Campaign) : M bool :=
  try_catch
    (insights <- meta_getInsights w (camp_id campaign) field ;;
     match insights with
     | Some (row :: _) =>
         ret (checkThreshold (metricValue h field row)
                (operator (trigger rule)) (value (trigger rule)))
     | _ => ret false
     end)
    (λ _, console_error (ErrCheckingInsights (camp_id campaign)) ;; ret false).

Fixpoint thresholdLoop (h : Host) (w : World) (rule : AutomationRule)
    (field : string) (matching : list Campaign) : M (list Campaign) :=
  match matching with
  | [] => ret []
  | campaign :: rest =>
      hit <- thresholdMet h w rule field campaign ;;
      triggered <- thresholdLoop h w rule field rest ;;
      ret (if hit then campaign :: triggered else triggered)
  end.

Definition notifyText (h : Host) (action : Action) (campaign : Campaign) : string :=
  let rendered :=
    match notifyMessage action with
    | Some msg => Some (replace h msg "{campaign_name}" (shown (camp_name campaign)))
    | None => None
    end in
  if str_truthy rendered then default "" rendered
  else "Alert triggered for campaign " ++ dq ++ shown (camp_name campaign) ++ dq.

Definition executeAction (h : Host) (w : World) (action : Action)
    (campaign : Campaign) (rule : AutomationRule) : M unit :=
  if bool_decide (action_type action = "pause") then
    meta_updateCampaign w (camp_id campaign) "PAUSED" ;;
    st <- get ;;
    if slackNotifier st then
      sendAlert "action" "Campaign Auto-Paused"
        ("Rule " ++ dq ++ rule_name rule ++ dq ++ " paused campaign "
           ++ dq ++ shown (camp_name campaign) ++ dq)
    else ret tt
  else if bool_decide (action_type action = "resume") then
    meta_updateCampaign w (camp_id campaign) "ACTIVE" ;;
    st <- get ;;
    if slackNotifier st then
      sendAlert "action" "Campaign Auto-Resumed"
        ("Rule " ++ dq ++ rule_name rule ++ dq ++ " resumed campaign "
           ++ dq ++ shown (camp_name campaign) ++ dq)
    else ret tt
  else if bool_decide (action_type action = "notify") then
    st <- get ;;
    if slackNotifier st then
      sendAlert "alert" (rule_name rule) (notifyText h action campaign)
    else ret tt
  else ret tt.

Definition set_lastRunAt (t : Z) (rule : AutomationRule) : AutomationRule :=
  {| rule_id := rule_id rule; rule_name := rule_name rule;
     accountId := accountId rule; enabled := enabled rule;
     trigger := trigger rule; conditions := conditions rule;
     actions := actions rule; createdAt := createdAt rule;
     lastRunAt := Some t |}.

Definition set_enabled (b : bool) (rule : AutomationRule) : AutomationRule :=
  {| rule_id := rule_id rule; rule_name := rule_name rule;
     accountId := accountId rule; enabled := b;
     trigger := trigger rule; conditions := conditions rule;
     actions := actions rule; createdAt := createdAt rule;
     lastRunAt := lastRunAt rule |}.

(** The campaigns the actions are applied to: the matching ones, narrowed by
    the metric check for a threshold trigger that names a metric. *)
Definition triggeredCampaigns (h : Host) (w : World) (rule : AutomationRule)
    (matching : list Campaign) : M (list Campaign) :=
  if bool_decide (trigger_type (trigger rule) = "threshold")
     && str_truthy (metric (trigger rule))
  then thresholdLoop h w rule (default "" (metric (trigger rule))) matching
  else ret matching.

(** The two nested loops that apply the actions. *)
Definition executeActions (h : Host) (w : World) (rule : AutomationRule)
    (triggered : list Campaign) : M unit :=
  for_each triggered (λ campaign,
    for_each (actions rule) (λ action,
      executeAction h w action campaign rule)).

Definition executeRule (h : Host) (w : World) (rule : AutomationRule) : M unit :=
  try_catch
    (campaignsResult <- meta_getCampaigns w (accountId rule) ;;
     campaigns <- match campaignsResult with
                  | Some cs => ret cs
                  | None => throw TypeError
                  end ;;
     let matchingCampaigns := List.filter (conditions_filter h rule) campaigns in
     triggered <- triggeredCampaigns h w rule matchingCampaigns ;;
     executeActions h w rule triggered ;;
     modify (with_rules <[rule_id rule := set_lastRunAt (new_Date w) rule]>) ;;
     saveRules w)
    (λ _, console_error (ErrExecutingRule (rule_name rule))).

(** ** AutomationEngine: public methods *)

Definition start (h : Host) : M unit :=
  loadRules ;;
  scheduleAllRules h.

Definition new_id (w : World) : string :=
  "rule_" ++ pretty (Date_now w) ++ "_" ++ Math_random w.

Definition new_rule (w : World) (ruleData : RuleData) : AutomationRule :=
  {| rule_id := new_id w; rule_name := data_name ruleData;
     accountId := data_accountId ruleData; enabled := data_enabled ruleData;
     trigger := data_trigger ruleData; conditions := data_conditions ruleData;
     actions := data_actions ruleData; createdAt := new_Date w;
     lastRunAt := data_lastRunAt ruleData |}.

Definition addRule (h : Host) (w : World) (ruleData : RuleData) : M string :=
  let rule := new_rule w ruleData in
  modify (with_rules <[rule_id rule := rule]>) ;;
  saveRules w ;;
  (if enabled rule then scheduleRule h rule else ret tt) ;;
  ret (rule_id rule).

Definition removeRule (w : World) (ruleId : string) : M unit :=
  unscheduleRule ruleId ;;
  modify (with_rules (delete ruleId)) ;;
  saveRules w.

Definition toggleRule (h : Host) (w : World) (ruleId : string) : M unit :=
  st <- get ;;
  match rules st !! ruleId with
  | Some rule0 =>
      let rule := set_enabled (negb (enabled rule0)) rule0 in
      modify (with_rules <[ruleId := rule]>) ;;
      saveRules w ;;
      if enabled rule then scheduleRule h rule else unscheduleRule ruleId
  | None => ret tt
  end.

Definition runRule (h : Host) (w : World) (ruleId : string) : M unit :=
  st <- get ;;
  match rules st !! ruleId with
  | Some rule => executeRule h w rule
  | None => ret tt
  end.

Definition getRulesForAccount (account : string) : M (list AutomationRule) :=
  st <- get ;;
  ret (List.filter
         (λ rule, bool_decide (accountId rule = account)
                  || bool_decide (accountId rule = "act_" ++ account))
         (values (rules st))).

Definition getAllRules : M (list AutomationRule) :=
  st <- get ;;
  ret (values (rules st)).

Definition stop : M unit :=
  st <- get ;;
  for_each (values (cronJobs st)) task_stop ;;
  for_each (values (intervalJobs st)) clearInterval ;;
  modify (with_cronJobs (λ _, ∅)) ;;
  modify (with_intervalJobs (λ _, ∅)).

(** ** A concrete host and concrete worlds, for the examples

    The host functions below agree with the JavaScript builtins on the
    inputs the examples feed them: ASCII letters, plain decimal literals,
    a pattern without special replacement sequences, five- or six-field
    cron expressions. *)

Module Sample.

Definition lower_char (c : ascii) : ascii :=
  let n := nat_of_ascii c in
  if (65 <=? n)%nat && (n <=? 90)%nat then ascii_of_nat (n + 32) else c.

Fixpoint lower (s : string) : string :=
  match s with
  | EmptyString => EmptyString
  | String c s' => String (lower_char c) (lower s')
  end.

Definition digit_of (c : ascii) : option Z :=
  let n := Z.of_nat (nat_of_ascii c) in
  if (48 <=? n) && (n <=? 57) then Some (n - 48) else None.

(** Leading digits of [s]: their value on top of [acc], how many there
    are, and what follows them. *)
Fixpoint digits (s : string) (acc : Z) (count : nat) : Z * nat * string :=
  match s with
  | EmptyString => (acc, count, s)
  | String c s' =>
      match digit_of c with
      | Some d => digits s' (10 * acc + d) (S count)
      | None => (acc, count, s)
      end
  end.

Definition unsigned_decimal (s : string) : number :=
  match digits s 0 O with
  | (i, ni, rest) =>
      match rest with
      | String c rest' =>
          if bool_decide (c = ascii_of_nat 46) then
            match digits rest' 0 O with
            | (f, nf, _) =>
                if bool_decide (ni = O) && bool_decide (nf = O) then NaN
                else Finite (inject_Z i + Qmake f (Pos.of_nat (10 ^ nf)))
            end
          else if bool_decide (ni = O) then NaN else Finite (inject_Z i)
      | EmptyString => if bool_decide (ni = O) then NaN else Finite (inject_Z i)
      end
  end.

Definition decimal (s : string) : number :=
  match s with
  | String c s' =>
      if bool_decide (c = ascii_of_nat 45) then num_neg (unsigned_decimal s')
      else if bool_decide (c = ascii_of_nat 43) then unsigned_decimal s'
      else unsigned_decimal s
  | EmptyString => NaN
  end.

Fixpoint replace_first (s pat repl : string) : string :=
  if String.prefix pat s
  then repl ++ String.substring (String.length pat)
                 (String.length s - String.length pat) s
  else match s with
       | EmptyString => EmptyString
       | String c s' => String c (replace_first s' pat repl)
       end.

Definition cron_char (c : ascii) : bool :=
  let n := nat_of_ascii c in
  ((48 <=? n)%nat && (n <=? 57)%nat)
  || bool_decide (n ∈ [32; 42; 44; 45; 47]%nat).

Definition cron_fields (s : string) : nat :=
  S (length (List.filter (λ c, bool_decide (c = ascii_of_nat 32))
               (list_ascii_of_string s))).

Definition cron_ok (s : string) : bool :=
  forallb cron_char (list_ascii_of_string s)
  && bool_decide (cron_fields s ∈ [5; 6]%nat).

Definition host : Host :=
  {| toLowerCase := lower; parseFloatStr := decimal;
     replace := replace_first; cronAccepts := cron_ok |}.

Definition campaign (cid cname status : string) : Campaign :=
  {| camp_id := cid; camp_name := Some cname; camp_status := status;
     camp_spend := None |}.

Definition no_conditions : Conditions :=
  {| campaignStatus := None; campaignNameContains := None;
     minSpend := None; maxSpend := None |}.

Definition on_schedule (expr : string) : Trigger :=
  {| trigger_type := "schedule"; cron := Some expr; metric := None;
     operator := None; value := None; checkInterval := None |}.

Definition on_threshold (field op : string) (v minutes : Z) : Trigger :=
  {| trigger_type := "threshold"; cron := None; metric := Some field;
     operator := Some op; value := Some (num_of_Z v);
     checkInterval := Some (num_of_Z minutes) |}.

Definition act (kind : string) : Action :=
  {| action_type := kind; budgetChange := None; notifyMessage := None |}.

Definition rule_data (on : bool) (t : Trigger) (c : Conditions) (a : list Action) : RuleData :=
  {| data_name := "r"; data_accountId := "act_1"; data_enabled := on;
     data_trigger := t; data_conditions := c; data_actions := a;
     data_lastRunAt := None |}.

(** A world in which every call goes through and the account has the given
    campaigns, each with the given insights row. *)
Definition world (cs : list Campaign) (row : Insight) (now : Z) : World :=
  {| getCampaigns := λ _, Resolves (Some cs);
     getInsights := λ _ _, Resolves (Some [row]);
     updateCampaign := λ _ _, true;
     writeFileSync := true;
     Date_now := now; new_Date := now; Math_random := "k3x9q0a1z" |}.

(** The same world, except that every update of campaign [bad] is
    refused. *)
Definition world_refusing (bad : string) (cs : list Campaign) (now : Z) : World :=
  {| getCampaigns := λ _, Resolves (Some cs);
     getInsights := λ _ _, Resolves (Some [∅]);
     updateCampaign := λ cid _, negb (bool_decide (cid = bad));
     writeFileSync := true;
     Date_now := now; new_Date := now; Math_random := "k3x9q0a1z" |}.


Definition rule (t : Trigger) (a : list Action) : AutomationRule :=
  {| rule_id := "r1"; rule_name := "r"; accountId := "act_1"; enabled := true;
     trigger := t; conditions := no_conditions; actions := a;
     createdAt := 0; lastRunAt := None |}.

End Sample.

(** ** What the private methods compute, as functions of the state *)

(** The state [unscheduleRule] leaves. *)
Definition unscheduled (ruleId : string) (st : Engine) : Engine :=
  {| rules := rules st;
     cronJobs := delete ruleId (cronJobs st);
     intervalJobs := delete ruleId (intervalJobs st);
     slackNotifier := slackNotifier st;
     armed :=
       match intervalJobs st !! ruleId with
       | Some job => delete (timeout_handle job)
       | None => λ a, a
       end
         (match cronJobs st !! ruleId with
          | Some job => delete (task_handle job)
          | None => λ a, a
          end (armed st));
     next_handle := next_handle st;
     dataFile := dataFile st |}.

(** Whether [scheduleRule] arms a timer for an enabled rule. *)
Definition schedulable (h : Host) (rule : AutomationRule) : bool :=
  if bool_decide (trigger_type (trigger rule) = "schedule")
     && str_truthy (cron (trigger rule))
  then cronAccepts h (default "" (cron (trigger rule)))
  else bool_decide (trigger_type (trigger rule) = "threshold")
       && num_truthy (operand (checkInterval (trigger rule))).

(** The state [scheduleRule] leaves. *)
Definition scheduled (h : Host) (rule : AutomationRule) (st : Engine) : Engine :=
  let st1 := unscheduled (rule_id rule) st in
  if negb (enabled rule) then st1
  else if bool_decide (trigger_type (trigger rule) = "schedule")
          && str_truthy (cron (trigger rule)) then
    if cronAccepts h (default "" (cron (trigger rule))) then
      with_cronJobs
        <[rule_id rule :=
            {| task_handle := next_handle st1;
               task_cron := default "" (cron (trigger rule));
               task_rule := rule_id rule |}]>
        (arm (rule_id rule) st1)
    else st1
  else if bool_decide (trigger_type (trigger rule) = "threshold")
          && num_truthy (operand (checkInterval (trigger rule))) then
    with_intervalJobs
      <[rule_id rule :=
          {| timeout_handle := next_handle st1;
             timeout_ms :=
               num_mul (num_mul (operand (checkInterval (trigger rule)))
                          (num_of_Z 60)) (num_of_Z 1000);
             timeout_rule := rule_id rule |}]>
      (arm (rule_id rule) st1)
  else st1.

(** The error lines [scheduleRule] prints. *)
Definition schedule_errors (h : Host) (rule : AutomationRule) : list Event :=
  if enabled rule
     && bool_decide (trigger_type (trigger rule) = "schedule")
     && str_truthy (cron (trigger rule))
     && negb (cronAccepts h (default "" (cron (trigger rule))))
  then [ConsoleError (ErrScheduling (rule_name rule))]
  else [].

(** Whether the metric check of the threshold loop keeps a campaign, and
    what the check leaves in the trace. *)
Definition metric_hit (h : Host) (w : World) (rule : AutomationRule)
    (field : string) (campaign : Campaign) : bool :=
  match getInsights w (camp_id campaign) field with
  | Resolves (Some (row :: _)) =>
      checkThreshold (metricValue h field row)
        (operator (trigger rule)) (value (trigger rule))
  | _ => false
  end.

Definition metric_events (w : World) (field : string) (campaign : Campaign) : list Event :=
  CallGetInsights (camp_id campaign) field ::
  match getInsights w (camp_id campaign) field with
  | Rejects => [ConsoleError (ErrCheckingInsights (camp_id campaign))]
  | Resolves _ => []
  end.


(** ** The conditions filter in the words of the specification

    A campaign passes iff every configured sub-condition holds: the status
    filter when specified and not [ANY], the case-insensitive name
    substring when specified, and the spend bounds, against the spend
    reported for the campaign, when specified. *)

Definition status_condition (rule : AutomationRule) (campaign : Campaign) : Prop :=
  ∀ s, campaignStatus (conditions rule) = Some s → s ≠ "" → s ≠ "ANY" →
       camp_status campaign = s.

Definition name_condition (h : Host) (rule : AutomationRule) (campaign : Campaign) : Prop :=
  ∀ sub, campaignNameContains (conditions rule) = Some sub → sub ≠ "" →
         ∃ n, camp_name campaign = Some n
              ∧ includes (toLowerCase h n) (toLowerCase h sub) = true.

Definition spend_condition (rule : AutomationRule) (campaign : Campaign) : Prop :=
  ∀ spend, camp_spend campaign = Some spend →
    (∀ lo, minSpend (conditions rule) = Some lo → num_le lo spend = true)
    ∧ (∀ hi, maxSpend (conditions rule) = Some hi → num_le spend hi = true).

Definition spec_conditions (h : Host) (rule : AutomationRule) (campaign : Campaign) : Prop :=
  status_condition rule campaign
  ∧ name_condition h rule campaign
  ∧ spend_condition rule campaign.

(** What [saveRules] leaves and prints. *)
Definition saved (w : World) (st : Engine) : Engine :=
  if writeFileSync w then with_dataFile (Stored (values (rules st))) st else st.

Definition save_errors (w : World) : list Event :=
  if writeFileSync w then [] else [ConsoleError ErrSaving].

(** The state [addRule] leaves. *)
Definition added (h : Host) (w : World) (ruleData : RuleData) (st : Engine) : Engine :=
  let rule := new_rule w ruleData in
  let st' := saved w (with_rules <[rule_id rule := rule]> st) in
  if enabled rule then scheduled h rule st' else st'.

(** ** What one fire does, as functions of the world *)

(** Whether [executeAction] throws: the update of a [pause] or [resume] is
    refused. *)
Definition action_fails (w : World) (campaign : Campaign) (action : Action) : bool :=
  if bool_decide (action_type action = "pause")
  then negb (updateCampaign w (camp_id campaign) "PAUSED")
  else if bool_decide (action_type action = "resume")
  then negb (updateCampaign w (camp_id campaign) "ACTIVE")
  else false.

(** The calls [executeAction] makes, with or without a Slack notifier. *)
Definition action_events (h : Host) (w : World) (slack : bool) (rule : AutomationRule)
    (campaign : Campaign) (action : Action) : list Event :=
  if bool_decide (action_type action = "pause") then
    CallUpdateCampaign (camp_id campaign) "PAUSED" ::
    (if updateCampaign w (camp_id campaign) "PAUSED" && slack
     then [SlackAlert "action" "Campaign Auto-Paused"
             ("Rule " ++ dq ++ rule_name rule ++ dq ++ " paused campaign "
                ++ dq ++ shown (camp_name campaign) ++ dq)]
     else [])
  else if bool_decide (action_type action = "resume") then
    CallUpdateCampaign (camp_id campaign) "ACTIVE" ::
    (if updateCampaign w (camp_id campaign) "ACTIVE" && slack
     then [SlackAlert "action" "Campaign Auto-Resumed"
             ("Rule " ++ dq ++ rule_name rule ++ dq ++ " resumed campaign "
                ++ dq ++ shown (camp_name campaign) ++ dq)]
     else [])
  else if bool_decide (action_type action = "notify") then
    (if slack
     then [SlackAlert "alert" (rule_name rule) (notifyText h action campaign)]
     else [])
  else [].

(** A loop whose body throws at the first element that fails: the events
    up to and including that element, and whether one failed. *)
Fixpoint run_until {A} (events : A → list Event) (fails : A → bool)
    (l : list A) : list Event * bool :=
  match l with
  | [] => ([], false)
  | x :: l' =>
      if fails x then (events x, true)
      else match run_until events fails l' with
           | (t, failed) => ((events x ++ t)%list, failed)
           end
  end.

(** The inner loop, over the actions of the rule, for one campaign. *)
Definition campaign_run (h : Host) (w : World) (slack : bool) (rule : AutomationRule)
    (campaign : Campaign) : list Event * bool :=
  run_until (action_events h w slack rule campaign) (action_fails w campaign)
    (actions rule).

(** The outer loop, over the triggered campaigns. *)
Definition actions_run (h : Host) (w : World) (slack : bool) (rule : AutomationRule)
    (triggered : list Campaign) : list Event * bool :=
  run_until (λ c, (campaign_run h w slack rule c).1)
            (λ c, (campaign_run h w slack rule c).2) triggered.

(** The triggered campaigns and the calls made to find them. *)
Definition triggered_of (h : Host) (w : World) (rule : AutomationRule)
    (campaigns : list Campaign) : list Campaign :=
  let matching := List.filter (conditions_filter h rule) campaigns in
  if bool_decide (trigger_type (trigger rule) = "threshold")
     && str_truthy (metric (trigger rule))
  then List.filter (metric_hit h w rule (default "" (metric (trigger rule)))) matching
  else matching.

Definition evaluation_events (h : Host) (w : World) (rule : AutomationRule)
    (campaigns : list Campaign) : list Event :=
  let matching := List.filter (conditions_filter h rule) campaigns in
  if bool_decide (trigger_type (trigger rule) = "threshold")
     && str_truthy (metric (trigger rule))
  then flat_map (metric_events w (default "" (metric (trigger rule)))) matching
  else [].


(** ** The engine as a state machine *)

(** The calls of the public interface after [start].  The callback of a
    job runs [executeRule] on the rule object the job captured, which is
    the object stored under the rule's id: the fire of a job is [RunRule]
    of its id. *)
Inductive Call :=
| AddRule (ruleData : RuleData)
| RemoveRule (ruleId : string)
| ToggleRule (ruleId : string)
| RunRule (ruleId : string)
| GetRulesForAccount (account : string)
| GetAllRules
| Stop.

(** The state a call leaves, in the world it runs in. *)
Definition perform (h : Host) (w : World) (call : Call) (st : Engine) : Engine :=
  match call with
  | AddRule ruleData => state_of (addRule h w ruleData st)
  | RemoveRule ruleId => state_of (removeRule w ruleId st)
  | ToggleRule ruleId => state_of (toggleRule h w ruleId st)
  | RunRule ruleId => state_of (runRule h w ruleId st)
  | GetRulesForAccount account => state_of (getRulesForAccount account st)
  | GetAllRules => state_of (getAllRules st)
  | Stop => state_of (stop st)
  end.

Fixpoint perform_all (h : Host) (calls : list (World * Call)) (st : Engine) : Engine :=
  match calls with
  | [] => st
  | (w, call) :: rest => perform_all h rest (perform h w call st)
  end.

(** Every [addRule] of the sequence draws an id that no stored rule has. *)
Fixpoint fresh_ids (h : Host) (calls : list (World * Call)) (st : Engine) : Prop :=
  match calls with
  | [] => True
  | (w, call) :: rest =>
      match call with
      | AddRule _ => rules st !! new_id w = None
      | _ => True
      end
      ∧ fresh_ids h rest (perform h w call st)
  end.

Definition is_stop (call : Call) : bool :=
  match call with
  | Stop => true
  | _ => false
  end.

Definition never_stopped (calls : list (World * Call)) : bool :=
  forallb (λ wc, negb (is_stop wc.2)) calls.

(** The engine once constructed and started, in a process whose data file
    is [d]. *)
Definition started (h : Host) (slack : bool) (d : DataFile) : Engine :=
  state_of (start h (new_engine slack d)).

(** The handle of the timer the engine holds for a rule id. *)
Definition job_handle (st : Engine) (ruleId : string) : option nat :=
  match cronJobs st !! ruleId with
  | Some job => Some (task_handle job)
  | None => timeout_handle <$> (intervalJobs st !! ruleId)
  end.

(** A timer armed in the runtime for the rule id: a live job. *)
Definition live_job (st : Engine) (ruleId : string) (handle : nat) : Prop :=
  armed st !! handle = Some ruleId.

(** The job tables and the runtime agree: the armed timers are the ones
    the engine holds, a rule id is in one table at most, and handles are
    not reused. *)
Record jobs_ok (st : Engine) : Prop := {
  jobs_armed : ∀ handle k, armed st !! handle = Some k ↔ job_handle st k = Some handle;
  jobs_one : ∀ k, cronJobs st !! k = None ∨ intervalJobs st !! k = None;
  jobs_below : ∀ handle k, armed st !! handle = Some k → (handle < next_handle st)%nat
}.

(** Jobs are held for stored, enabled rules with a trigger that can be
    scheduled, and rules are stored under their own id. *)
Record rules_ok (h : Host) (st : Engine) : Prop := {
  rules_jobs : ∀ k handle, job_handle st k = Some handle →
      ∃ r, rules st !! k = Some r ∧ enabled r = true ∧ schedulable h r = true;
  rules_ids : ∀ k r, rules st !! k = Some r → rule_id r = k
}.

(** Every stored, enabled rule with a trigger that can be scheduled has
    its job. *)
Definition synced (h : Host) (st : Engine) : Prop :=
  ∀ k r, rules st !! k = Some r → enabled r = true → schedulable h r = true →
         is_Some (job_handle st k).

(** The state [stop] leaves. *)
Definition stopped (st : Engine) : Engine :=
  with_intervalJobs (λ _, ∅)
    (with_cronJobs (λ _, ∅)
       (foldl (λ s job, with_armed (delete (timeout_handle job)) s)
          (foldl (λ s job, with_armed (delete (task_handle job)) s) st
             (values (cronJobs st)))
          (values (intervalJobs st)))).

(** The state [loadRules] leaves. *)
Definition loaded (st : Engine) : Engine :=
  match dataFile st with
  | Stored rs => foldl (λ s rule, with_rules <[rule_id rule := rule]> s) st rs
  | _ => st
  end.

(** The state [scheduleAllRules] leaves. *)
Definition all_scheduled (h : Host) (st : Engine) : Engine :=
  foldl (λ s rule, if enabled rule then scheduled h rule s else s) st
    (values (rules st)).

(** Two states with the same job tables and the same armed timers. *)
Definition same_jobs (st st' : Engine) : Prop :=
  cronJobs st' = cronJobs st
  ∧ intervalJobs st' = intervalJobs st
  ∧ armed st' = armed st
  ∧ next_handle st' = next_handle st.

(** ** Further descriptions used by the properties of the whole engine *)

(** The states the engine goes through: constructed, started once, then
    driven by calls of the public interface, each [addRule] drawing an id
    that no stored rule has. *)
Definition reachable (h : Host) (st : Engine) : Prop :=
  ∃ slack d calls,
    fresh_ids h calls (started h slack d)
    ∧ st = perform_all h calls (started h slack d).


(** Whether an event is a status update sent to the Meta client. *)
Definition is_update (e : Event) : bool :=
  match e with
  | CallUpdateCampaign _ _ => true
  | _ => false
  end.

(** Whether an action is one that updates the campaign. *)
Definition updates_campaign (action : Action) : bool :=
  bool_decide (action_type action = "pause")
  || bool_decide (action_type action = "resume").


(** ** The web server (src/web/server.ts) *)

(** The account id the insights route sends to the Meta client:
    [accountId.startsWith("act_") ? accountId : `act_${accountId}`]. *)
Definition formattedAccountId (accountId : string) : string :=
  if String.prefix "act_" accountId then accountId else "act_" ++ accountId.

(** The array [getRulesForAccount] returns. *)
Definition rules_for (account : string) (st : Engine) : list AutomationRule :=
  match completion_of (getRulesForAccount account st) with
  | Normal rs => rs
  | Throw _ => []
  end.

(** *** Login, logout and the guard of the dashboard pages

    The session of one browser is the flag [req.session.authenticated];
    [req.session.destroy] clears it.  The expiry of the session cookie is
    not represented. *)

Inductive Request :=
| GetLogin
| PostLogin (password : option string)
| GetLogout
| GetPage.

Inductive Reply :=
| RenderLogin (error : option string)
| RedirectTo (path : string)
| Served.

(** [process.env.DASHBOARD_PASSWORD || "admin"]. *)
Definition correctPassword (DASHBOARD_PASSWORD : option string) : string :=
  if str_truthy DASHBOARD_PASSWORD then default "" DASHBOARD_PASSWORD else "admin".

(** The reply to a request and the flag it leaves: the handlers of
    [/login], [/logout], and [requireAuth] in front of a page. *)
Definition serve (DASHBOARD_PASSWORD : option string) (authenticated : bool)
    (req : Request) : Reply * bool :=
  match req with
  | GetLogin => (RenderLogin None, authenticated)
  | PostLogin password =>
      if bool_decide (password = Some (correctPassword DASHBOARD_PASSWORD))
      then (RedirectTo "/", true)
      else (RenderLogin (Some "Invalid password"), authenticated)
  | GetLogout => (RedirectTo "/login", false)
  | GetPage =>
      if authenticated then (Served, authenticated)
      else (RedirectTo "/login", authenticated)
  end.

(** The flag after a sequence of requests of a new session. *)
Definition session_after (DASHBOARD_PASSWORD : option string) (reqs : list Request) : bool :=
  foldl (λ authenticated req, (serve DASHBOARD_PASSWORD authenticated req).2)
    false reqs.

(** *** The JSON routes *)

Inductive ApiBody :=
| ApiSuccess
| ApiCreated (id : string)
| ApiError (error : string).

Record ApiReply := {
  status : nat;
  body : ApiBody
}.

(** What a route does besides replying: the calls and error lines of the
    engine and of the clients, and the error line of the route's own
    [catch]. *)
Inductive ServerEvent :=
| Did (e : Event)
| ServerError (what : string).






(** [POST /api/campaign/:campaignId/pause] and [.../resume]: 503 without a
    Meta client; the update and, with a Slack notifier, the confirmation
    inside [try]; 500 from the [catch]. *)
Definition campaign_route (w : World) (metaClient slackNotifier : bool)
    (campaignId newStatus title message what failure : string) :
    list ServerEvent * ApiReply :=
  if negb metaClient then
    ([], {| status := 503; body := ApiError "Meta API client not initialized" |})
  else if updateCampaign w campaignId newStatus then
    (Did (CallUpdateCampaign campaignId newStatus) ::
       (if slackNotifier then [Did (SlackAlert "action" title message)] else []),
     {| status := 200; body := ApiSuccess |})
  else
    ([Did (CallUpdateCampaign campaignId newStatus); ServerError what],
     {| status := 500; body := ApiError failure |}).

Definition post_pause (w : World) (metaClient slackNotifier : bool) (campaignId : string) :=
  campaign_route w metaClient slackNotifier campaignId "PAUSED" "Campaign Paused"
    ("Campaign " ++ campaignId ++ " was paused via dashboard")
    "Error pausing campaign:" "Failed to pause campaign".

Definition post_resume (w : World) (metaClient slackNotifier : bool) (campaignId : string) :=
  campaign_route w metaClient slackNotifier campaignId "ACTIVE" "Campaign Resumed"
    ("Campaign " ++ campaignId ++ " was resumed via dashboard")
    "Error resuming campaign:" "Failed to resume campaign".

(** ** The Slack notifier (src/notifications/slack.ts) *)

Module Slack.

Record Field := {
  field_name : string;
  field_value : string
}.

(** [SlackAlert]. *)
Record Alert := {
  alert_type : string;
  alert_title : string;
  alert_message : string;
  alert_fields : option (list Field);
  alert_color : option string
}.

Record Text := {
  text_type : string;
  text : string;
  emoji : option bool
}.

(** [SlackBlock]. *)
Record Block := {
  block_type : string;
  block_text : option Text;
  block_fields : option (list Text)
}.

(** The one attachment of the payload. *)
Record Payload := {
  color : string;
  blocks : list Block
}.

Definition getColor (type : string) (customColor : option string) : string :=
  if str_truthy customColor then default "" customColor
  else if bool_decide (type = "alert") then "#FFA500"
  else if bool_decide (type = "action") then "#36A64F"
  else if bool_decide (type = "report") then "#0066CC"
  else "#808080".

Definition getEmoji (type : string) : string :=
  if bool_decide (type = "alert") then "⚠️"
  else if bool_decide (type = "action") then "✅"
  else if bool_decide (type = "report") then "📊"
  else "📋".

Definition newline : string := String (Ascii.ascii_of_nat 10) "".

Definition mrkdwn (s : string) : Text :=
  {| text_type := "mrkdwn"; text := s; emoji := None |}.

Definition header_block (s : string) : Block :=
  {| block_type := "header";
     block_text := Some {| text_type := "plain_text"; text := s; emoji := Some true |};
     block_fields := None |}.

Definition text_block (s : string) : Block :=
  {| block_type := "section"; block_text := Some (mrkdwn s); block_fields := None |}.

Definition fields_block (l : list Text) : Block :=
  {| block_type := "section"; block_text := None; block_fields := Some l |}.

(** The closing block; [now] is [new Date().toLocaleString()]. *)
Definition context_block (now : string) : Block :=
  {| block_type := "context";
     block_text := Some (mrkdwn ("Ivan Ads Manager • " ++ now));
     block_fields := None |}.

(** The blocks [sendAlert] builds. *)
Definition alert_blocks (alert : Alert) (now : string) : list Block :=
  ([header_block (getEmoji (alert_type alert) ++ " " ++ alert_title alert);
    text_block (alert_message alert)]
   ++ match alert_fields alert with
      | Some (f :: fs) =>
          [fields_block
             (map (λ f, mrkdwn ("*" ++ field_name f ++ ":*" ++ newline ++ field_value f))
                (f :: fs))]
      | _ => []
      end
   ++ [context_block now])%list.

(** What the webhook does with a request: [fetch] rejects, or resolves
    with a response. *)
Inductive Webhook :=
| NoAnswer
| Answers (ok : bool) (code : nat).

Inductive Effect :=
| Post (url : string) (payload : Payload)
| PrintError (what : string).

(** [await fetch(...)] followed by [if (!response.ok) throw ...]. *)
Definition request (url : string) (payload : Payload) (answer : Webhook) :
    list Effect * Completion unit :=
  ([Post url payload],
   match answer with
   | NoAnswer => Throw UpstreamFailure
   | Answers ok _ => if ok then Normal tt else Throw UpstreamFailure
   end).

(** The [try]/[catch] that ends both methods. *)
Definition post (what url : string) (payload : Payload) (answer : Webhook) :
    list Effect * Completion unit :=
  match request url payload answer with
  | (t, Throw _) => ((t ++ [PrintError what])%list, Normal tt)
  | r => r
  end.

Definition sendAlert (webhookUrl now : string) (alert : Alert) (answer : Webhook) :
    list Effect * Completion unit :=
  post "Error sending Slack notification:" webhookUrl
    {| color := getColor (alert_type alert) (alert_color alert);
       blocks := alert_blocks alert now |} answer.

Record Metrics := {
  spend : string;
  impressions : string;
  clicks : string;
  ctr : string;
  conversions : option string
}.

Record TopCampaign := {
  top_name : string;
  top_spend : string;
  top_ctr : string
}.

(** The argument of [sendPerformanceReport]. *)
Record Report := {
  accountName : string;
  period : string;
  metrics : Metrics;
  topCampaigns : option (list TopCampaign)
}.

(** [lines.join("\n")]. *)
Fixpoint join (lines : list string) : string :=
  match lines with
  | [] => ""
  | [s] => s
  | s :: rest => s ++ newline ++ join rest
  end.

Definition campaign_line (c : TopCampaign) : string :=
  "• *" ++ top_name c ++ "* - " ++ top_spend c ++ " (" ++ top_ctr c ++ " CTR)".

(** The blocks [sendPerformanceReport] builds. *)
Definition report_blocks (data : Report) (now : string) : list Block :=
  ([header_block ("📊 Performance Report: " ++ accountName data);
    text_block ("*Period:* " ++ period data);
    fields_block
      [mrkdwn ("*Spend:*" ++ newline ++ spend (metrics data));
       mrkdwn ("*Impressions:*" ++ newline ++ impressions (metrics data));
       mrkdwn ("*Clicks:*" ++ newline ++ clicks (metrics data));
       mrkdwn ("*CTR:*" ++ newline ++ ctr (metrics data))]]
   ++ match topCampaigns data with
      | Some (c :: cs) =>
          [text_block ("*Top Campaigns:*" ++ newline
                       ++ join (map campaign_line (c :: cs)))]
      | _ => []
      end
   ++ [context_block now])%list.

Definition sendPerformanceReport (webhookUrl now : string) (data : Report)
    (answer : Webhook) : list Effect * Completion unit :=
  post "Error sending Slack report:" webhookUrl
    {| color := "#0066CC"; blocks := report_blocks data now |} answer.

(** Whether the webhook took the request. *)
Definition accepted (answer : Webhook) : bool :=
  match answer with
  | Answers true _ => true
  | _ => false
  end.

End Slack.
(** * Properties *)

Ltac run_monad :=
  unfold bind, try_catch, ret, throw, emit, get, modify, console_error,
    sendAlert, task_stop, clearInterval, setInterval; simpl.

Lemma unscheduleRule_run ruleId st :
  unscheduleRule ruleId st = ([], unscheduled ruleId st, Normal tt).
Proof.
  unfold unscheduleRule, unscheduled. run_monad. destruct st; simpl.
  destruct (cronJobs0 !! ruleId) as [cj|] eqn:Hc;
    destruct (intervalJobs0 !! ruleId) as [ij|] eqn:Hi; simpl;
    rewrite ?Hi; simpl; unfold with_cronJobs, with_intervalJobs, with_armed; simpl;
    rewrite ?(delete_id cronJobs0) by done;
    rewrite ?(delete_id intervalJobs0) by done; reflexivity.
Qed.

Lemma saveRules_run w st :
  saveRules w st =
    if writeFileSync w
    then ([], with_dataFile (Stored (values (rules st))) st, Normal tt)
    else ([ConsoleError ErrSaving], st, Normal tt).
Proof.
  unfold saveRules, fs_writeFileSync. run_monad.
  destruct (writeFileSync w); destruct st; reflexivity.
Qed.

Lemma scheduleRule_run h rule st :
  scheduleRule h rule st = (schedule_errors h rule, scheduled h rule st, Normal tt).
Proof.
  unfold scheduleRule, scheduled, schedule_errors, bind.
  rewrite unscheduleRule_run.
  destruct (enabled rule); simpl; [|reflexivity].
  destruct (bool_decide (trigger_type (trigger rule) = "schedule")
            && str_truthy (cron (trigger rule))); simpl.
  - unfold try_catch, bind, cron_schedule.
    destruct (cronAccepts h _); reflexivity.
  - destruct (bool_decide (trigger_type (trigger rule) = "threshold")
              && num_truthy (operand (checkInterval (trigger rule)))); reflexivity.
Qed.

Lemma thresholdMet_run h w rule field campaign st :
  thresholdMet h w rule field campaign st =
    (metric_events w field campaign, st, Normal (metric_hit h w rule field campaign)).
Proof.
  unfold thresholdMet, meta_getInsights, metric_events, metric_hit. run_monad.
  destruct (getInsights w (camp_id campaign) field) as [|[[|row rest]|]]; reflexivity.
Qed.

Lemma thresholdLoop_run h w rule field matching st :
  thresholdLoop h w rule field matching st =
    (flat_map (metric_events w field) matching, st,
     Normal (List.filter (metric_hit h w rule field) matching)).
Proof.
  induction matching as [|c rest IH]; [reflexivity|].
  simpl. unfold bind at 1. rewrite thresholdMet_run.
  unfold bind at 1. rewrite IH. unfold ret.
  rewrite app_nil_r. simpl.
  destruct (metric_hit h w rule field c); reflexivity.
Qed.

Lemma triggeredCampaigns_threshold h w rule field matching st :
  trigger_type (trigger rule) = "threshold" →
  metric (trigger rule) = Some field →
  field ≠ "" →
  triggeredCampaigns h w rule matching st =
    (flat_map (metric_events w field) matching, st,
     Normal (List.filter (metric_hit h w rule field) matching)).
Proof.
  intros Ht Hm Hf. unfold triggeredCampaigns. rewrite Ht, Hm.
  unfold str_truthy.
  rewrite (bool_decide_true ("threshold" = "threshold")) by reflexivity.
  rewrite (bool_decide_false (field = "")) by exact Hf. simpl.
  apply thresholdLoop_run.
Qed.

Lemma elem_of_List_filter {A} (f : A → bool) (l : list A) (x : A) :
  x ∈ List.filter f l ↔ x ∈ l ∧ f x = true.
Proof. rewrite !list_elem_of_In. apply filter_In. Qed.


Lemma num_lt_finite (a b : Q) : num_lt (Finite a) (Finite b) = true ↔ (a < b)%Q.
Proof.
  simpl. rewrite negb_true_iff. split.
  - intros H. apply Qnot_le_lt. intros Hle.
    apply Qle_bool_iff in Hle. congruence.
  - intros H. destruct (Qle_bool b a) eqn:E; [|reflexivity].
    apply Qle_bool_iff in E. exfalso. exact (Qlt_not_le _ _ H E).
Qed.


(** ** The static conditions filter *)

Lemma status_rejects_false rule campaign :
  status_rejects rule campaign = false ↔ status_condition rule campaign.
Proof.
  unfold status_rejects, status_condition, str_truthy.
  destruct (campaignStatus (conditions rule)) as [s|]; simpl.
  - repeat case_bool_decide; simpl; split; intros Hx; try done;
      try (intros s' [= <-] ? ?; congruence).
    exfalso. assert (s ≠ "ANY") by congruence.
    assert (camp_status campaign = s) by (apply Hx; done). congruence.
  - split; [intros _ s' [=]|done].
Qed.

Lemma name_rejects_false h rule campaign :
  name_rejects h rule campaign = false ↔ name_condition h rule campaign.
Proof.
  unfold name_rejects, name_condition, str_truthy.
  destruct (campaignNameContains (conditions rule)) as [sub|]; simpl.
  - case_bool_decide; simpl.
    + split; [intros _ s' [= <-] ?; done|done].
    + rewrite negb_false_iff. split.
      * intros Hx s' [= <-] _. destruct (camp_name campaign) as [n|]; [|done].
        exists n. done.
      * intros Hx. destruct (Hx sub eq_refl ltac:(done)) as (n & -> & Hn). done.
  - split; [intros _ s' [=]|done].
Qed.

(** C1, as the code has it: the filter of [executeRule] passes a campaign
    iff the status sub-condition (when the rule names a status other than
    [ANY]) and the case-insensitive name sub-condition (when the rule names
    a substring) both hold.  The spend bounds of the rule and the spend of
    the campaign take no part: the equivalence holds whatever they are. *)
Theorem conditions_filter_status_and_name (h : Host) (rule : AutomationRule)
    (campaign : Campaign) :
  conditions_filter h rule campaign = true ↔
    status_condition rule campaign ∧ name_condition h rule campaign.
Proof.
  rewrite <- status_rejects_false, <- name_rejects_false.
  unfold conditions_filter.
  destruct (status_rejects rule campaign), (name_rejects h rule campaign);
    split; intros Hx; try done; destruct Hx; done.
Qed.

(** C1 as stated fails: a campaign whose reported spend (5) is below the
    rule's [minSpend] (100) passes the filter of the code. *)
Lemma conditions_filter_ignores_spend :
  let rule :=
    {| rule_id := "r1"; rule_name := "r"; accountId := "act_1"; enabled := true;
       trigger := Sample.on_schedule "0 9 * * *";
       conditions := {| campaignStatus := None; campaignNameContains := None;
                        minSpend := Some (num_of_Z 100); maxSpend := None |};
       actions := [Sample.act "pause"]; createdAt := 0; lastRunAt := None |} in
  let campaign :=
    {| camp_id := "c1"; camp_name := Some "Summer Sale"; camp_status := "ACTIVE";
       camp_spend := Some (num_of_Z 5) |} in
  conditions_filter Sample.host rule campaign = true
  ∧ ¬ spec_conditions Sample.host rule campaign.
Proof.
  split; [reflexivity|].
  intros (_ & _ & Hspend).
  destruct (Hspend (num_of_Z 5) eq_refl) as [Hlo _].
  specialize (Hlo (num_of_Z 100) eq_refl). vm_compute in Hlo. discriminate.
Qed.

(** ** The metric comparison of threshold rules *)



(** C9: for a threshold rule, when the insights of a condition-passing
    campaign come back with a row in which the metric field is absent or
    does not parse as a number, the value compared is 0: the campaign is
    triggered iff the comparison holds for 0, so operator [lt] with a
    positive threshold triggers it.  A campaign whose insights come back
    empty, or without data, is not triggered. *)
Theorem unparseable_metric_is_zero (h : Host) (w : World) (rule : AutomationRule)
    (field : string) (matching : list Campaign) (st : Engine) (campaign : Campaign) :
  trigger_type (trigger rule) = "threshold" →
  metric (trigger rule) = Some field →
  field ≠ "" →
  campaign ∈ matching →
  ∃ tr triggered,
    triggeredCampaigns h w rule matching st = (tr, st, Normal triggered)
    ∧ (∀ row rest,
         getInsights w (camp_id campaign) field = Resolves (Some (row :: rest)) →
         row !! field = None ∨ (∃ s, row !! field = Some s ∧ parseFloatStr h s = NaN) →
         metricValue h field row = num_of_Z 0
         ∧ (campaign ∈ triggered ↔
              checkThreshold (num_of_Z 0) (operator (trigger rule))
                (value (trigger rule)) = true)
         ∧ (∀ t : Q, operator (trigger rule) = Some "lt" →
                     value (trigger rule) = Some (Finite t) → (0 < t)%Q →
                     campaign ∈ triggered))
    ∧ (getInsights w (camp_id campaign) field = Resolves (Some [])
       ∨ getInsights w (camp_id campaign) field = Resolves None →
       campaign ∉ triggered).
Proof.
  intros Ht Hm Hf Hin.
  eexists _, _. split; [apply triggeredCampaigns_threshold; eassumption|].
  split.
  - intros row rest Hins Hbad.
    assert (Hv : metricValue h field row = num_of_Z 0).
    { unfold metricValue. destruct Hbad as [->|(s & -> & Hs)]; simpl;
        rewrite ?Hs; reflexivity. }
    assert (Hiff : campaign ∈ List.filter (metric_hit h w rule field) matching ↔
              checkThreshold (num_of_Z 0) (operator (trigger rule))
                (value (trigger rule)) = true).
    { rewrite elem_of_List_filter. unfold metric_hit. rewrite Hins, Hv. tauto. }
    split; [exact Hv|]. split; [exact Hiff|].
    intros t Hop Hval Hpos. apply Hiff. rewrite Hop, Hval.
    unfold checkThreshold. simpl. apply num_lt_finite. exact Hpos.
  - intros Hempty. rewrite elem_of_List_filter. unfold metric_hit.
    destruct Hempty as [-> | ->]; intros [_ [=]].
Qed.

Lemma unparseable_metric_is_zero_witness :
  let rule :=
    {| rule_id := "r1"; rule_name := "r"; accountId := "act_1"; enabled := true;
       trigger := Sample.on_threshold "ctr" "lt" 2 5;
       conditions := Sample.no_conditions;
       actions := [Sample.act "pause"]; createdAt := 0; lastRunAt := None |} in
  let c := Sample.campaign "c1" "Summer Sale" "ACTIVE" in
  let w := Sample.world [c] {["impressions" := "10"]} 0 in
  ∃ tr triggered,
    triggeredCampaigns Sample.host w rule [c] (new_engine false Missing)
      = (tr, new_engine false Missing, Normal triggered)
    ∧ c ∈ triggered.
Proof.
  intros rule c w.
  destruct (unparseable_metric_is_zero Sample.host w rule "ctr" [c]
              (new_engine false Missing) c eq_refl eq_refl ltac:(discriminate)
              ltac:(apply list_elem_of_here))
    as (tr & triggered & Hrun & Hzero & _).
  exists tr, triggered. split; [exact Hrun|].
  destruct (Hzero {["impressions" := "10"]} [] eq_refl ltac:(left; reflexivity))
    as (_ & _ & Hlt).
  apply (Hlt (inject_Z 2)); reflexivity.
Defined.

(** ** Reading the rules of an account *)

Lemma elem_of_values {V} (m : gmap string V) (v : V) :
  v ∈ values m ↔ ∃ k, m !! k = Some v.
Proof.
  unfold values. rewrite list_elem_of_fmap. split.
  - intros ([k v'] & -> & Hin). exists k. by apply elem_of_map_to_list.
  - intros (k & Hk). exists (k, v). split; [done|]. by apply elem_of_map_to_list.
Qed.

(** C10: [getRulesForAccount(a)] returns the rules of the map whose
    [accountId] is [a] or [act_] followed by [a], and only those; it leaves
    the engine, its rule map included, as it was. *)
Theorem getRulesForAccount_exact (a : string) (st : Engine) :
  ∃ rs,
    getRulesForAccount a st = ([], st, Normal rs)
    ∧ ∀ rule, rule ∈ rs ↔
        (∃ k, rules st !! k = Some rule)
        ∧ (accountId rule = a ∨ accountId rule = "act_" ++ a).
Proof.
  eexists. split; [reflexivity|].
  intros rule. rewrite elem_of_List_filter, elem_of_values.
  rewrite orb_true_iff, !bool_decide_eq_true. tauto.
Qed.

(** ** Persistence failures and malformed triggers *)

Lemma saveRules_saved w st :
  saveRules w st = (save_errors w, saved w st, Normal tt).
Proof.
  rewrite saveRules_run. unfold save_errors, saved.
  destruct (writeFileSync w); reflexivity.
Qed.

Lemma rules_saved w st : rules (saved w st) = rules st.
Proof. unfold saved. destruct (writeFileSync w); reflexivity. Qed.

Lemma rules_scheduled h rule st : rules (scheduled h rule st) = rules st.
Proof.
  unfold scheduled.
  repeat match goal with |- context [if ?b then _ else _] => destruct b end;
    reflexivity.
Qed.


Lemma addRule_run h w ruleData st :
  addRule h w ruleData st =
    ((save_errors w ++ schedule_errors h (new_rule w ruleData))%list,
     added h w ruleData st, Normal (new_id w)).
Proof.
  unfold addRule, added, bind. simpl. rewrite saveRules_saved.
  unfold schedule_errors. simpl.
  destruct (data_enabled ruleData) eqn:E; simpl.
  - rewrite scheduleRule_run. unfold schedule_errors. simpl. rewrite E. simpl.
    rewrite !app_nil_r. reflexivity.
  - unfold ret. rewrite !app_nil_r. reflexivity.
Qed.

Lemma removeRule_run w ruleId st :
  removeRule w ruleId st =
    (save_errors w,
     saved w (with_rules (delete ruleId) (unscheduled ruleId st)), Normal tt).
Proof.
  unfold removeRule, bind. rewrite unscheduleRule_run. simpl.
  rewrite saveRules_saved. reflexivity.
Qed.

Lemma toggleRule_run h w ruleId st :
  toggleRule h w ruleId st =
    match rules st !! ruleId with
    | Some rule0 =>
        let rule := set_enabled (negb (enabled rule0)) rule0 in
        let st' := saved w (with_rules <[ruleId := rule]> st) in
        ((save_errors w ++ schedule_errors h rule)%list,
         (if enabled rule then scheduled h rule st' else unscheduled ruleId st'),
         Normal tt)
    | None => ([], st, Normal tt)
    end.
Proof.
  unfold toggleRule, bind. simpl.
  destruct (rules st !! ruleId) as [rule0|]; [|reflexivity].
  simpl. rewrite saveRules_saved.
  destruct (enabled rule0) eqn:E; simpl.
  - rewrite unscheduleRule_run. unfold schedule_errors. simpl.
    rewrite ?app_nil_r. reflexivity.
  - rewrite scheduleRule_run. rewrite ?app_nil_r. reflexivity.
Qed.



(** C5, as the code has it: for an enabled rule, a schedule trigger whose
    cron expression node-cron rejects, and a threshold trigger whose
    interval is zero, make [scheduleRule] complete normally with no job
    under the rule's id and no timer armed; the rejected expression is
    printed as an error, the zero interval is passed over in silence.  The
    rule map is untouched. *)
Theorem malformed_trigger_leaves_no_job (h : Host) (rule : AutomationRule) (st : Engine) :
  enabled rule = true →
  (trigger_type (trigger rule) = "schedule"
   ∧ ∃ e, cron (trigger rule) = Some e ∧ e ≠ "" ∧ cronAccepts h e = false)
  ∨ (trigger_type (trigger rule) = "threshold"
     ∧ ∃ q, checkInterval (trigger rule) = Some (Finite q) ∧ (q == 0)%Q) →
  ∃ tr st',
    scheduleRule h rule st = (tr, st', Normal tt)
    ∧ st' = unscheduled (rule_id rule) st
    ∧ cronJobs st' !! rule_id rule = None
    ∧ intervalJobs st' !! rule_id rule = None
    ∧ rules st' = rules st
    ∧ next_handle st' = next_handle st
    ∧ tr = if bool_decide (trigger_type (trigger rule) = "schedule")
           then [ConsoleError (ErrScheduling (rule_name rule))] else [].
Proof.
  intros Hen Hbad. eexists _, _. split; [apply scheduleRule_run|].
  assert (Hst : scheduled h rule st = unscheduled (rule_id rule) st
                ∧ schedule_errors h rule =
                    if bool_decide (trigger_type (trigger rule) = "schedule")
                    then [ConsoleError (ErrScheduling (rule_name rule))] else []).
  { unfold scheduled, schedule_errors. rewrite Hen. simpl.
    destruct Hbad as [(Ht & e & He & Hne & Hrej)|(Ht & q & Hq & Hz)].
    - rewrite Ht, He. simpl. rewrite (bool_decide_false (e = "")) by exact Hne.
      simpl. rewrite Hrej. done.
    - rewrite Ht, Hq. simpl. apply Qeq_bool_iff in Hz. rewrite Hz. done. }
  destruct Hst as [-> ->]. simpl.
  rewrite !lookup_delete_eq. done.
Qed.

Lemma malformed_trigger_leaves_no_job_witness :
  let rule :=
    {| rule_id := "r1"; rule_name := "r"; accountId := "act_1"; enabled := true;
       trigger := Sample.on_schedule "every morning";
       conditions := Sample.no_conditions;
       actions := [Sample.act "pause"]; createdAt := 0; lastRunAt := None |} in
  ∃ tr st',
    scheduleRule Sample.host rule (new_engine false Missing) = (tr, st', Normal tt)
    ∧ cronJobs st' !! "r1" = None
    ∧ intervalJobs st' !! "r1" = None.
Proof.
  intros rule.
  destruct (malformed_trigger_leaves_no_job Sample.host rule (new_engine false Missing)
              eq_refl
              ltac:(left; split; [reflexivity|];
                    exists "every morning"; repeat split; discriminate))
    as (tr & st' & Hrun & _ & Hc & Hi & _).
  exists tr, st'. repeat split; assumption.
Defined.

(** C5 as stated fails: neither malformed trigger raises an error to the
    caller of [scheduleRule] or of [addRule]; and a negative interval arms
    a timer. *)
Lemma malformed_trigger_raises_nothing :
  let bad_cron :=
    Sample.rule_data true (Sample.on_schedule "every morning")
      Sample.no_conditions [Sample.act "pause"] in
  let zero_interval :=
    Sample.rule_data true (Sample.on_threshold "spend" "gt" 100 0)
      Sample.no_conditions [Sample.act "pause"] in
  let negative_interval :=
    Sample.rule_data true (Sample.on_threshold "spend" "gt" 100 (-5))
      Sample.no_conditions [Sample.act "pause"] in
  let w := Sample.world [] ∅ 1700000000000 in
  let st := new_engine false Missing in
  cronAccepts Sample.host "every morning" = false
  ∧ completion_of (scheduleRule Sample.host (new_rule w bad_cron) st) = Normal tt
  ∧ completion_of (addRule Sample.host w bad_cron st) = Normal (new_id w)
  ∧ completion_of (scheduleRule Sample.host (new_rule w zero_interval) st) = Normal tt
  ∧ completion_of (addRule Sample.host w zero_interval st) = Normal (new_id w)
  ∧ completion_of (addRule Sample.host w negative_interval st) = Normal (new_id w)
  ∧ map_to_list (armed (state_of (addRule Sample.host w negative_interval st)))
    = [(O, new_id w)].
Proof. vm_compute. repeat split; reflexivity. Qed.

(** ** One fire *)

Lemma executeAction_run h w action campaign rule st :
  executeAction h w action campaign rule st =
    (action_events h w (slackNotifier st) rule campaign action, st,
     if action_fails w campaign action then Throw UpstreamFailure else Normal tt).
Proof.
  unfold executeAction, action_events, action_fails, meta_updateCampaign.
  repeat case_bool_decide; run_monad;
    repeat match goal with
           | |- context [updateCampaign ?w ?c ?s] => destruct (updateCampaign w c s)
           | |- context [slackNotifier ?s] => destruct (slackNotifier s)
           end; reflexivity.
Qed.

Lemma for_each_run {A} (f : A → M unit) (events : A → list Event)
    (fails : A → bool) (e : Exn) (st : Engine) (l : list A) :
  (∀ x, f x st = (events x, st, if fails x then Throw e else Normal tt)) →
  for_each l f st =
    ((run_until events fails l).1, st,
     if (run_until events fails l).2 then Throw e else Normal tt).
Proof.
  intros Hf. induction l as [|x l IH]; [reflexivity|].
  simpl. unfold bind. rewrite Hf.
  destruct (fails x); [reflexivity|].
  rewrite IH. destruct (run_until events fails l) as [t failed]. reflexivity.
Qed.

Lemma executeActions_run h w rule triggered st :
  executeActions h w rule triggered st =
    ((actions_run h w (slackNotifier st) rule triggered).1, st,
     if (actions_run h w (slackNotifier st) rule triggered).2
     then Throw UpstreamFailure else Normal tt).
Proof.
  unfold executeActions, actions_run.
  apply for_each_run. intros c. unfold campaign_run.
  apply (for_each_run _ _ _ UpstreamFailure). intros a.
  apply executeAction_run.
Qed.

Lemma triggeredCampaigns_run h w rule matching st :
  triggeredCampaigns h w rule matching st =
    (if bool_decide (trigger_type (trigger rule) = "threshold")
        && str_truthy (metric (trigger rule))
     then flat_map (metric_events w (default "" (metric (trigger rule)))) matching
     else [],
     st,
     Normal
       (if bool_decide (trigger_type (trigger rule) = "threshold")
           && str_truthy (metric (trigger rule))
        then List.filter (metric_hit h w rule (default "" (metric (trigger rule))))
               matching
        else matching)).
Proof.
  unfold triggeredCampaigns.
  destruct (bool_decide (trigger_type (trigger rule) = "threshold")
            && str_truthy (metric (trigger rule)));
    [apply thresholdLoop_run|reflexivity].
Qed.

(** The whole of [executeRule]. *)
Lemma executeRule_run h w rule st :
  executeRule h w rule st =
    match getCampaigns w (accountId rule) with
    | Resolves (Some campaigns) =>
        let run := actions_run h w (slackNotifier st) rule
                     (triggered_of h w rule campaigns) in
        if run.2 then
          ((CallGetCampaigns (accountId rule) ::
              evaluation_events h w rule campaigns ++ run.1
              ++ [ConsoleError (ErrExecutingRule (rule_name rule))])%list,
           st, Normal tt)
        else
          ((CallGetCampaigns (accountId rule) ::
              evaluation_events h w rule campaigns ++ run.1 ++ save_errors w)%list,
           saved w (with_rules <[rule_id rule := set_lastRunAt (new_Date w) rule]> st),
           Normal tt)
    | _ =>
        ([CallGetCampaigns (accountId rule);
          ConsoleError (ErrExecutingRule (rule_name rule))], st, Normal tt)
    end.
Proof.
  unfold executeRule, try_catch, meta_getCampaigns.
  unfold bind at 1. unfold bind at 1. unfold emit at 1.
  destruct (getCampaigns w (accountId rule)) as [|[campaigns|]];
    [reflexivity| |reflexivity].
  unfold ret at 1. simpl.
  unfold bind at 1. unfold ret at 1.
  unfold bind at 1. rewrite triggeredCampaigns_run.
  unfold bind at 1. rewrite executeActions_run.
  fold (triggered_of h w rule campaigns).
  fold (evaluation_events h w rule campaigns).
  simpl.
  destruct (actions_run h w (slackNotifier st) rule (triggered_of h w rule campaigns))
    as [t failed].
  destruct failed; simpl.
  - unfold console_error, emit. rewrite <- ?app_assoc. reflexivity.
  - unfold bind, modify. rewrite saveRules_saved. simpl.
    rewrite <- ?app_assoc. reflexivity.
Qed.

Lemma run_until_all_ok {A} (events : A → list Event) (fails : A → bool) (l : list A) :
  (∀ x, x ∈ l → fails x = false) →
  run_until events fails l = (flat_map events l, false).
Proof.
  induction l as [|x l IH]; intros Hok; [reflexivity|].
  simpl. rewrite (Hok x) by apply list_elem_of_here.
  rewrite IH; [reflexivity|]. intros y Hy. apply Hok. by apply list_elem_of_further.
Qed.

Lemma run_until_first_failure {A} (events : A → list Event) (fails : A → bool)
    (l1 : list A) (x : A) (l2 : list A) :
  (∀ y, y ∈ l1 → fails y = false) →
  fails x = true →
  run_until events fails (l1 ++ x :: l2)%list = ((flat_map events l1 ++ events x)%list, true).
Proof.
  induction l1 as [|y l1 IH]; intros Hok Hx; simpl.
  - rewrite Hx. reflexivity.
  - rewrite (Hok y) by apply list_elem_of_here.
    rewrite IH; [rewrite app_assoc; reflexivity| |exact Hx].
    intros z Hz. apply Hok. by apply list_elem_of_further.
Qed.

Lemma flat_map_ext_elem {A} (f g : A → list Event) (l : list A) :
  (∀ x, x ∈ l → f x = g x) → flat_map f l = flat_map g l.
Proof.
  induction l as [|x l IH]; intros Hfg; [reflexivity|].
  simpl. rewrite (Hfg x) by apply list_elem_of_here.
  rewrite IH; [reflexivity|]. intros y Hy. apply Hfg. by apply list_elem_of_further.
Qed.

Lemma actions_run_all_ok h w slack rule triggered :
  (∀ c a, c ∈ triggered → a ∈ actions rule → action_fails w c a = false) →
  actions_run h w slack rule triggered =
    (flat_map (λ c, flat_map (action_events h w slack rule c) (actions rule)) triggered,
     false).
Proof.
  intros Hok. unfold actions_run.
  assert (Hc : ∀ c, c ∈ triggered →
            campaign_run h w slack rule c =
              (flat_map (action_events h w slack rule c) (actions rule), false)).
  { intros c Hin. apply run_until_all_ok. intros a Ha. by apply Hok. }
  rewrite run_until_all_ok.
  - f_equal. apply flat_map_ext_elem. intros c Hin. by rewrite Hc.
  - intros c Hin. by rewrite Hc.
Qed.

(** C2, as the code has it: when the update of a [pause] or [resume] is
    refused for a triggered campaign, the refused call is the last call of
    the fire.  The actions before it, for the campaigns before it and for
    this campaign, have run and stay applied; no later action of the rule
    runs for this campaign and none runs for the campaigns after it.
    [executeRule] prints the error and completes normally, and leaves the
    engine as it was: [lastRunAt] is not updated and nothing is saved. *)
Theorem action_failure_aborts_fire (h : Host) (w : World) (rule : AutomationRule)
    (st : Engine) (campaigns cs1 : list Campaign) (c : Campaign)
    (cs2 : list Campaign) (as1 : list Action) (a : Action) (as2 : list Action)
    (status : string) :
  getCampaigns w (accountId rule) = Resolves (Some campaigns) →
  triggered_of h w rule campaigns = (cs1 ++ c :: cs2)%list →
  actions rule = (as1 ++ a :: as2)%list →
  (∀ c' a', c' ∈ cs1 → a' ∈ actions rule → action_fails w c' a' = false) →
  (∀ a', a' ∈ as1 → action_fails w c a' = false) →
  (action_type a = "pause" ∧ status = "PAUSED")
  ∨ (action_type a = "resume" ∧ status = "ACTIVE") →
  updateCampaign w (camp_id c) status = false →
  executeRule h w rule st =
    ((CallGetCampaigns (accountId rule) ::
        evaluation_events h w rule campaigns
        ++ flat_map (λ c', flat_map (action_events h w (slackNotifier st) rule c')
                            (actions rule)) cs1
        ++ flat_map (action_events h w (slackNotifier st) rule c) as1
        ++ [CallUpdateCampaign (camp_id c) status;
            ConsoleError (ErrExecutingRule (rule_name rule))])%list,
     st, Normal tt).
Proof.
  intros Hget Htrig Hacts Hcs1 Has1 Hkind Hupd.
  rewrite executeRule_run, Hget. simpl. rewrite Htrig.
  assert (Hfail : action_fails w c a = true).
  { unfold action_fails. destruct Hkind as [[Ha ->]|[Ha ->]]; rewrite Ha; simpl;
      rewrite Hupd; reflexivity. }
  assert (Hev : action_events h w (slackNotifier st) rule c a
                = [CallUpdateCampaign (camp_id c) status]).
  { unfold action_events. destruct Hkind as [[Ha ->]|[Ha ->]]; rewrite Ha; simpl;
      rewrite Hupd; reflexivity. }
  assert (Hc : campaign_run h w (slackNotifier st) rule c =
            ((flat_map (action_events h w (slackNotifier st) rule c) as1
                ++ [CallUpdateCampaign (camp_id c) status])%list, true)).
  { unfold campaign_run. rewrite Hacts, run_until_first_failure by assumption.
    rewrite Hev. reflexivity. }
  assert (Hcs : ∀ c', c' ∈ cs1 →
            campaign_run h w (slackNotifier st) rule c' =
              (flat_map (action_events h w (slackNotifier st) rule c') (actions rule),
               false)).
  { intros c' Hin. apply run_until_all_ok. intros a' Ha'. by apply Hcs1. }
  unfold actions_run. rewrite run_until_first_failure.
  - simpl. rewrite Hc. simpl.
    rewrite (flat_map_ext_elem _
               (λ c', flat_map (action_events h w (slackNotifier st) rule c')
                        (actions rule)) cs1)
      by (intros c' Hin; by rewrite Hcs).
    rewrite <- !app_assoc. reflexivity.
  - intros c' Hin. by rewrite Hcs.
  - by rewrite Hc.
Qed.

Lemma action_failure_aborts_fire_witness :
  let c1 := Sample.campaign "c1" "Summer promo sale" "ACTIVE" in
  let c2 := Sample.campaign "c2" "Summer Sale" "ACTIVE" in
  let rule := Sample.rule (Sample.on_schedule "0 9 * * *")
                [Sample.act "pause"; Sample.act "notify"] in
  let w := Sample.world_refusing "c1" [c1; c2] 0 in
  executeRule Sample.host w rule (new_engine true Missing) =
    ([CallGetCampaigns "act_1"; CallUpdateCampaign "c1" "PAUSED";
      ConsoleError (ErrExecutingRule "r")],
     new_engine true Missing, Normal tt).
Proof.
  intros c1 c2 rule w.
  exact (action_failure_aborts_fire Sample.host w rule (new_engine true Missing)
           [c1; c2] [] c1 [c2] [] (Sample.act "pause") [Sample.act "notify"]
           "PAUSED" eq_refl eq_refl eq_refl
           ltac:(intros c' a' Hin; by apply elem_of_nil in Hin)
           ltac:(intros a' Hin; by apply elem_of_nil in Hin)
           ltac:(left; split; reflexivity) eq_refl).
Defined.

(** C2 as stated fails: with actions [pause; notify], campaigns c1 and c2
    both triggered, a Slack notifier configured and the pause of c1
    refused, the fire ends at the refused call: the notification for c1 is
    not sent and c2, whose pause would go through, is not paused. *)
Lemma failed_pause_stops_the_fire :
  let c1 := Sample.campaign "c1" "Summer promo sale" "ACTIVE" in
  let c2 := Sample.campaign "c2" "Summer Sale" "ACTIVE" in
  let rule := Sample.rule (Sample.on_schedule "0 9 * * *")
                [Sample.act "pause"; Sample.act "notify"] in
  let w := Sample.world_refusing "c1" [c1; c2] 0 in
  let fire := executeRule Sample.host w rule (new_engine true Missing) in
  updateCampaign w "c1" "PAUSED" = false
  ∧ updateCampaign w "c2" "PAUSED" = true
  ∧ triggered_of Sample.host w rule [c1; c2] = [c1; c2]
  ∧ trace_of fire =
      [CallGetCampaigns "act_1"; CallUpdateCampaign "c1" "PAUSED";
       ConsoleError (ErrExecutingRule "r")]
  ∧ (CallUpdateCampaign "c2" "PAUSED" ∉ trace_of fire)
  ∧ (∀ message, SlackAlert "alert" "r" message ∉ trace_of fire).
Proof.
  assert (Htr : trace_of (executeRule Sample.host
            (Sample.world_refusing "c1"
               [Sample.campaign "c1" "Summer promo sale" "ACTIVE";
                Sample.campaign "c2" "Summer Sale" "ACTIVE"] 0)
            (Sample.rule (Sample.on_schedule "0 9 * * *")
               [Sample.act "pause"; Sample.act "notify"])
            (new_engine true Missing)) =
      [CallGetCampaigns "act_1"; CallUpdateCampaign "c1" "PAUSED";
       ConsoleError (ErrExecutingRule "r")]) by (vm_compute; reflexivity).
  cbv zeta. rewrite Htr.
  split; [reflexivity|]. split; [reflexivity|]. split; [reflexivity|].
  split; [reflexivity|].
  split; [|intros message];
    intros Hin;
    repeat (apply elem_of_cons in Hin as [Hin|Hin]; [discriminate|]);
    by apply elem_of_nil in Hin.
Qed.



(** ** The scheduler *)

Lemma for_each_total {A} (f : A → M unit) (events : A → list Event)
    (g : A → Engine → Engine) (l : list A) (st : Engine) :
  (∀ x s, f x s = (events x, g x s, Normal tt)) →
  for_each l f st = (flat_map events l, foldl (λ s x, g x s) st l, Normal tt).
Proof.
  intros Hf. revert st. induction l as [|x l IH]; intros st; [reflexivity|].
  simpl. unfold bind. rewrite Hf, IH. reflexivity.
Qed.

Lemma flat_map_nil {A B} (l : list A) : flat_map (λ _ : A, @nil B) l = [].
Proof. induction l; [reflexivity|assumption]. Qed.

Lemma stop_run st : stop st = ([], stopped st, Normal tt).
Proof.
  unfold stop, stopped, bind. simpl.
  rewrite (for_each_total _ (λ _, []) (λ job, with_armed (delete (task_handle job))))
    by reflexivity.
  rewrite (for_each_total _ (λ _, []) (λ job, with_armed (delete (timeout_handle job))))
    by reflexivity.
  rewrite !flat_map_nil. reflexivity.
Qed.

Lemma loadRules_run st :
  loadRules st =
    (match dataFile st with Corrupt => [ConsoleError ErrLoading] | _ => [] end,
     loaded st, Normal tt).
Proof.
  unfold loadRules, loaded, try_catch, bind. simpl.
  destruct (dataFile st) as [| |rs]; try reflexivity.
  rewrite (for_each_total _ (λ _, [])
             (λ rule, with_rules <[rule_id rule := rule]>)) by reflexivity.
  rewrite flat_map_nil. reflexivity.
Qed.

Lemma scheduleAllRules_run h st :
  scheduleAllRules h st =
    (flat_map (λ rule, if enabled rule then schedule_errors h rule else [])
       (values (rules st)),
     all_scheduled h st, Normal tt).
Proof.
  unfold scheduleAllRules, all_scheduled, bind. simpl.
  rewrite (for_each_total _
             (λ rule, if enabled rule then schedule_errors h rule else [])
             (λ rule s, if enabled rule then scheduled h rule s else s)).
  - reflexivity.
  - intros rule s. destruct (enabled rule); [apply scheduleRule_run|reflexivity].
Qed.

Lemma started_eq h slack d :
  started h slack d = all_scheduled h (loaded (new_engine slack d)).
Proof.
  unfold started, start, bind. rewrite loadRules_run, scheduleAllRules_run.
  reflexivity.
Qed.

Lemma job_handle_unscheduled k st k' :
  job_handle (unscheduled k st) k' =
    if decide (k' = k) then None else job_handle st k'.
Proof.
  unfold job_handle. simpl. destruct (decide (k' = k)) as [->|Hne].
  - rewrite !lookup_delete_eq. reflexivity.
  - rewrite !lookup_delete_ne by done. reflexivity.
Qed.

Lemma armed_unscheduled k st handle k' :
  jobs_ok st →
  armed (unscheduled k st) !! handle = Some k' ↔
    k' ≠ k ∧ armed st !! handle = Some k'.
Proof.
  intros [Harmed Hone Hbelow]. simpl.
  assert (Hk : ∀ hd, job_handle st k = Some hd → armed st !! hd = Some k)
    by (intros hd; apply Harmed).
  unfold job_handle in Hk.
  destruct (Hone k) as [Hc|Hi].
  - rewrite Hc in *. destruct (intervalJobs st !! k) as [job|] eqn:Hi; simpl in *.
    + specialize (Hk _ eq_refl).
      destruct (decide (handle = timeout_handle job)) as [->|Hne].
      * rewrite lookup_delete_eq. split; [done|]. intros [Hneq Ha]. congruence.
      * rewrite lookup_delete_ne by done. split; [|tauto].
        intros Ha. split; [|done]. intros ->.
        apply Harmed in Ha. unfold job_handle in Ha. rewrite Hc, Hi in Ha.
        simpl in Ha. congruence.
    + split; [|tauto]. intros Ha. split; [|done]. intros ->.
      apply Harmed in Ha. unfold job_handle in Ha. rewrite Hc, Hi in Ha. done.
  - rewrite Hi in *. destruct (cronJobs st !! k) as [job|] eqn:Hc; simpl in *.
    + specialize (Hk _ eq_refl).
      destruct (decide (handle = task_handle job)) as [->|Hne].
      * rewrite lookup_delete_eq. split; [done|]. intros [Hneq Ha]. congruence.
      * rewrite lookup_delete_ne by done. split; [|tauto].
        intros Ha. split; [|done]. intros ->.
        apply Harmed in Ha. unfold job_handle in Ha. rewrite Hc in Ha.
        congruence.
    + split; [|tauto]. intros Ha. split; [|done]. intros ->.
      apply Harmed in Ha. unfold job_handle in Ha. rewrite Hc, Hi in Ha. done.
Qed.

Lemma jobs_ok_unscheduled k st : jobs_ok st → jobs_ok (unscheduled k st).
Proof.
  intros Hok. pose proof Hok as [Harmed Hone Hbelow]. split.
  - intros handle k'. rewrite armed_unscheduled, job_handle_unscheduled by done.
    rewrite Harmed. destruct (decide (k' = k)); split; try tauto; done.
  - intros k'. simpl. destruct (Hone k') as [Hc|Hi];
      [left|right]; apply lookup_delete_None; by right.
  - intros handle k' Ha. apply armed_unscheduled in Ha as [_ Ha]; [|done].
    simpl. by eapply Hbelow.
Qed.

(** A job put in a table of an engine that holds none for the id. *)
Lemma jobs_ok_armed st st' k :
  jobs_ok st →
  job_handle st k = None →
  armed st' = <[next_handle st := k]> (armed st) →
  next_handle st' = S (next_handle st) →
  (∀ k', job_handle st' k' =
           if decide (k' = k) then Some (next_handle st) else job_handle st k') →
  (∀ k', cronJobs st' !! k' = None ∨ intervalJobs st' !! k' = None) →
  jobs_ok st'.
Proof.
  intros [Harmed Hone Hbelow] Hnone Ha Hn Hj Hone'. split; [|done|].
  - intros handle k'. rewrite Ha, Hj.
    destruct (decide (handle = next_handle st)) as [->|Hne].
    + rewrite lookup_insert_eq. destruct (decide (k' = k)) as [->|Hk]; [done|].
      split; [congruence|]. intros Hjh. apply Harmed, Hbelow in Hjh. lia.
    + rewrite lookup_insert_ne by done. destruct (decide (k' = k)) as [->|Hk].
      * rewrite Harmed, Hnone. split; [done|congruence].
      * apply Harmed.
  - intros handle k'. rewrite Ha, Hn.
    destruct (decide (handle = next_handle st)) as [->|Hne]; [lia|].
    rewrite lookup_insert_ne by done. intros Hx. apply Hbelow in Hx. lia.
Qed.

Lemma job_handle_scheduled h rule st k' :
  job_handle (scheduled h rule st) k' =
    if decide (k' = rule_id rule)
    then (if enabled rule && schedulable h rule then Some (next_handle st) else None)
    else job_handle st k'.
Proof.
  unfold scheduled, schedulable.
  destruct (enabled rule); simpl;
    [|rewrite job_handle_unscheduled; by destruct (decide _)].
  destruct (bool_decide (trigger_type (trigger rule) = "schedule")
            && str_truthy (cron (trigger rule))).
  - destruct (cronAccepts h _);
      [|rewrite job_handle_unscheduled; by destruct (decide _)].
    unfold job_handle. simpl. destruct (decide (k' = rule_id rule)) as [->|Hne].
    + rewrite lookup_insert_eq. reflexivity.
    + rewrite lookup_insert_ne, !lookup_delete_ne by done. reflexivity.
  - destruct (bool_decide (trigger_type (trigger rule) = "threshold")
              && num_truthy (operand (checkInterval (trigger rule))));
      [|rewrite job_handle_unscheduled; by destruct (decide _)].
    unfold job_handle. simpl. destruct (decide (k' = rule_id rule)) as [->|Hne].
    + rewrite lookup_delete_eq, lookup_insert_eq. reflexivity.
    + rewrite lookup_insert_ne, !lookup_delete_ne by done. reflexivity.
Qed.

Lemma jobs_ok_scheduled h rule st : jobs_ok st → jobs_ok (scheduled h rule st).
Proof.
  intros Hok. pose proof (jobs_ok_unscheduled (rule_id rule) st Hok) as Hun.
  assert (Hnone : job_handle (unscheduled (rule_id rule) st) (rule_id rule) = None).
  { rewrite job_handle_unscheduled. by destruct (decide _). }
  assert (Hj := job_handle_scheduled h rule st).
  unfold scheduled, schedulable in *.
  destruct (enabled rule); simpl in *; [|done].
  destruct (bool_decide (trigger_type (trigger rule) = "schedule")
            && str_truthy (cron (trigger rule))).
  - destruct (cronAccepts h _); [|done].
    eapply (jobs_ok_armed (unscheduled (rule_id rule) st)); try done.
    + intros k'. rewrite Hj, job_handle_unscheduled. by destruct (decide _).
    + intros k'. simpl. destruct (decide (k' = rule_id rule)) as [->|Hne].
      * right. apply lookup_delete_eq.
      * rewrite lookup_insert_ne, !lookup_delete_ne by done.
        apply (jobs_one _ Hok).
  - destruct (bool_decide (trigger_type (trigger rule) = "threshold")
              && num_truthy (operand (checkInterval (trigger rule)))); [|done].
    eapply (jobs_ok_armed (unscheduled (rule_id rule) st)); try done.
    + intros k'. rewrite Hj, job_handle_unscheduled. by destruct (decide _).
    + intros k'. simpl. destruct (decide (k' = rule_id rule)) as [->|Hne].
      * left. apply lookup_delete_eq.
      * rewrite lookup_insert_ne, !lookup_delete_ne by done.
        apply (jobs_one _ Hok).
Qed.

Lemma same_jobs_job_handle st st' k :
  same_jobs st st' → job_handle st' k = job_handle st k.
Proof. intros (Hc & Hi & _). unfold job_handle. rewrite Hc, Hi. reflexivity. Qed.

Lemma same_jobs_ok st st' : same_jobs st st' → jobs_ok st → jobs_ok st'.
Proof.
  intros Hs [Harmed Hone Hbelow]. pose proof Hs as (Hc & Hi & Ha & Hn). split.
  - intros handle k. rewrite Ha, (same_jobs_job_handle st st') by done. apply Harmed.
  - intros k. rewrite Hc, Hi. apply Hone.
  - intros handle k. rewrite Ha, Hn. apply Hbelow.
Qed.

Lemma same_jobs_saved_with_rules w f st : same_jobs st (saved w (with_rules f st)).
Proof. unfold saved. destruct (writeFileSync w); done. Qed.


(** *** [stop] *)

Lemma foldl_with_armed {A} (handle : A → nat) (l : list A) (st : Engine) :
  let st' := foldl (λ s x, with_armed (delete (handle x)) s) st l in
  rules st' = rules st ∧ cronJobs st' = cronJobs st
  ∧ intervalJobs st' = intervalJobs st ∧ next_handle st' = next_handle st
  ∧ dataFile st' = dataFile st ∧ slackNotifier st' = slackNotifier st
  ∧ ∀ hd, armed st' !! hd =
          if bool_decide (hd ∈ handle <$> l) then None else armed st !! hd.
Proof.
  revert st. induction l as [|x l IH]; intros st; simpl.
  - repeat split; done.
  - destruct (IH (with_armed (delete (handle x)) st))
      as (Hr & Hc & Hi & Hn & Hd & Hs & Ha).
    repeat split; try done. intros hd. rewrite Ha. simpl.
    destruct (decide (hd = handle x)) as [->|Hne].
    + rewrite lookup_delete_eq. rewrite (bool_decide_true (_ ∈ _ :: _)).
      * by destruct (bool_decide _).
      * apply list_elem_of_here.
    + rewrite lookup_delete_ne by done.
      destruct (bool_decide (hd ∈ handle <$> l)) eqn:E.
      * apply bool_decide_eq_true in E. rewrite bool_decide_true; [done|].
        by apply list_elem_of_further.
      * apply bool_decide_eq_false in E. rewrite bool_decide_false; [done|].
        intros Hin. apply elem_of_cons in Hin as [?|?]; done.
Qed.

Lemma stopped_fields st :
  rules (stopped st) = rules st
  ∧ cronJobs (stopped st) = ∅
  ∧ intervalJobs (stopped st) = ∅
  ∧ next_handle (stopped st) = next_handle st
  ∧ ∀ hd, armed (stopped st) !! hd =
          if bool_decide (hd ∈ timeout_handle <$> values (intervalJobs st))
          then None
          else if bool_decide (hd ∈ task_handle <$> values (cronJobs st))
          then None else armed st !! hd.
Proof.
  unfold stopped. simpl.
  set (st1 := foldl (λ s job, with_armed (delete (task_handle job)) s) st
                (values (cronJobs st))).
  destruct (foldl_with_armed task_handle (values (cronJobs st)) st)
    as (Hr & Hc & Hi & Hn & Hd & Hs & Ha).
  destruct (foldl_with_armed timeout_handle (values (intervalJobs st)) st1)
    as (Hr' & Hc' & Hi' & Hn' & Hd' & Hs' & Ha').
  fold st1 in Hr, Hc, Hi, Hn, Hd, Hs, Ha.
  repeat split; try congruence.
  intros hd. rewrite Ha', Ha. reflexivity.
Qed.

Lemma job_handle_stopped st k : job_handle (stopped st) k = None.
Proof.
  destruct (stopped_fields st) as (_ & Hc & Hi & _).
  unfold job_handle. rewrite Hc, Hi, !lookup_empty. reflexivity.
Qed.

Lemma jobs_ok_stopped st : jobs_ok st → jobs_ok (stopped st).
Proof.
  intros [Harmed Hone Hbelow].
  destruct (stopped_fields st) as (Hr & Hc & Hi & Hn & Ha).
  assert (Hnone : ∀ hd, armed (stopped st) !! hd = None).
  { intros hd. rewrite Ha.
    destruct (armed st !! hd) as [k|] eqn:E; [|by repeat destruct (bool_decide _)].
    apply Harmed in E. unfold job_handle in E.
    destruct (cronJobs st !! k) as [job|] eqn:Hcj.
    - injection E as <-.
      rewrite (bool_decide_true (_ ∈ task_handle <$> _)).
      + by destruct (bool_decide _).
      + apply list_elem_of_fmap. exists job. split; [done|].
        apply elem_of_values. by exists k.
    - destruct (intervalJobs st !! k) as [job|] eqn:Hij; [|done].
      injection E as <-.
      rewrite (bool_decide_true (_ ∈ timeout_handle <$> _)); [done|].
      apply list_elem_of_fmap. exists job. split; [done|].
      apply elem_of_values. by exists k. }
  split.
  - intros hd k. rewrite Hnone, job_handle_stopped. done.
  - intros k. left. rewrite Hc. apply lookup_empty.
  - intros hd k. rewrite Hnone. done.
Qed.

(** *** [start] *)

Lemma loaded_fold (rs : list AutomationRule) (st : Engine) :
  let st' := foldl (λ s rule, with_rules <[rule_id rule := rule]> s) st rs in
  same_jobs st st'
  ∧ ((∀ k r, rules st !! k = Some r → rule_id r = k) →
     ∀ k r, rules st' !! k = Some r → rule_id r = k).
Proof.
  revert st. induction rs as [|rule rs IH]; intros st; simpl; [done|].
  destruct (IH (with_rules <[rule_id rule := rule]> st)) as [Hs Hids].
  split; [exact Hs|].
  intros Hst. apply Hids. intros k r. simpl.
  destruct (decide (rule_id rule = k)) as [<-|Hne].
  - rewrite lookup_insert_eq. by intros [= <-].
  - rewrite lookup_insert_ne by done. apply Hst.
Qed.

Lemma jobs_ok_idle st :
  cronJobs st = ∅ → intervalJobs st = ∅ → armed st = ∅ → jobs_ok st.
Proof.
  intros Hc Hi Ha. split.
  - intros hd k. unfold job_handle. rewrite Ha, Hc, Hi, !lookup_empty. done.
  - intros k. left. rewrite Hc. apply lookup_empty.
  - intros hd k. rewrite Ha, lookup_empty. done.
Qed.

Lemma loaded_new_engine slack d :
  let st := loaded (new_engine slack d) in
  jobs_ok st
  ∧ (∀ k, job_handle st k = None)
  ∧ (∀ k r, rules st !! k = Some r → rule_id r = k).
Proof.
  unfold loaded. simpl.
  assert (Hbase : ∀ k r, rules (new_engine slack d) !! k = Some r → rule_id r = k)
    by (intros k r; simpl; rewrite lookup_empty; done).
  assert (jobs_ok (new_engine slack d)) by (by apply jobs_ok_idle).
  assert (∀ k, job_handle (new_engine slack d) k = None)
    by (intros k; unfold job_handle; simpl; rewrite !lookup_empty; done).
  destruct d as [| |rs]; try done.
  destruct (loaded_fold rs (new_engine slack (Stored rs))) as [Hs Hids].
  split; [by eapply same_jobs_ok|]. split; [|by apply Hids].
  intros k. rewrite (same_jobs_job_handle _ _ k Hs).
  unfold job_handle. simpl. rewrite !lookup_empty. done.
Qed.

Lemma all_scheduled_fold h (st0 : Engine) (l : list AutomationRule) :
  (∀ r, r ∈ l → rules st0 !! rule_id r = Some r) →
  jobs_ok st0 →
  (∀ k, job_handle st0 k = None) →
  let st' := foldl (λ s rule, if enabled rule then scheduled h rule s else s) st0 l in
  jobs_ok st'
  ∧ rules st' = rules st0
  ∧ (∀ k hd, job_handle st' k = Some hd →
       ∃ r, rules st0 !! k = Some r ∧ enabled r = true ∧ schedulable h r = true)
  ∧ (∀ r, r ∈ l → enabled r = true → schedulable h r = true →
          is_Some (job_handle st' (rule_id r))).
Proof.
  intros Hl Hok Hnone. induction l as [|x l IH] using rev_ind; simpl.
  - split; [done|]. split; [done|]. split.
    + intros k hd. rewrite Hnone. done.
    + intros r Hin. by apply elem_of_nil in Hin.
  - rewrite foldl_app. simpl.
    destruct IH as (Hj & Hr & Hsome & Hall).
    { intros r Hin. apply Hl. apply elem_of_app. by left. }
    assert (Hx : rules st0 !! rule_id x = Some x).
    { apply Hl. apply elem_of_app. right. apply list_elem_of_here. }
    set (st1 := foldl (λ s rule, if enabled rule then scheduled h rule s else s) st0 l)
      in *.
    destruct (enabled x) eqn:Hen.
    + split; [by apply jobs_ok_scheduled|].
      split; [by rewrite rules_scheduled|]. split.
      * intros k hd. rewrite job_handle_scheduled, Hen. simpl.
        destruct (decide (k = rule_id x)) as [->|Hne]; [|apply Hsome].
        destruct (schedulable h x) eqn:Hsch; [|done].
        intros _. by exists x.
      * intros r Hin Hre Hrs. rewrite job_handle_scheduled, Hen. simpl.
        destruct (decide (rule_id r = rule_id x)) as [Heq|Hne].
        -- assert (r = x) as ->.
           { apply elem_of_app in Hin as [Hin|Hin].
             - assert (rules st0 !! rule_id r = Some r) as Hrr
                 by (apply Hl, elem_of_app; by left).
               rewrite Heq, Hx in Hrr. congruence.
             - apply list_elem_of_singleton in Hin. done. }
           rewrite Hrs. done.
        -- apply elem_of_app in Hin as [Hin|Hin]; [by apply Hall|].
           apply list_elem_of_singleton in Hin. congruence.
    + split; [done|]. split; [done|]. split; [done|].
      intros r Hin Hre Hrs. apply elem_of_app in Hin as [Hin|Hin]; [by apply Hall|].
      apply list_elem_of_singleton in Hin. congruence.
Qed.

Lemma started_ok h slack d :
  jobs_ok (started h slack d)
  ∧ rules_ok h (started h slack d)
  ∧ synced h (started h slack d).
Proof.
  rewrite started_eq. unfold all_scheduled.
  destruct (loaded_new_engine slack d) as (Hok & Hnone & Hids).
  set (st0 := loaded (new_engine slack d)) in *.
  destruct (all_scheduled_fold h st0 (values (rules st0))) as (Hj & Hr & Hsome & Hall);
    try done.
  { intros r Hin. apply elem_of_values in Hin as [k Hk].
    by rewrite (Hids k r Hk). }
  split; [done|]. split; [split|].
  - intros k hd Hjh. rewrite Hr. by eapply Hsome.
  - intros k r. rewrite Hr. apply Hids.
  - intros k r. rewrite Hr. intros Hk Hen Hsch.
    rewrite <- (Hids k r Hk). apply Hall; try done.
    apply elem_of_values. by exists k.
Qed.

(** *** The calls of the public interface *)

(** A call that touches the rule and the job of one id only. *)
Lemma rules_ok_update h k st st' :
  rules_ok h st →
  (∀ k', k' ≠ k → rules st' !! k' = rules st !! k'
                  ∧ job_handle st' k' = job_handle st k') →
  (∀ hd, job_handle st' k = Some hd →
         ∃ r, rules st' !! k = Some r ∧ enabled r = true ∧ schedulable h r = true) →
  (∀ r, rules st' !! k = Some r → rule_id r = k) →
  rules_ok h st'.
Proof.
  intros [Hjobs Hids] Hother Hjob Hid. split.
  - intros k' hd. destruct (decide (k' = k)) as [->|Hne]; [apply Hjob|].
    destruct (Hother k' Hne) as [-> ->]. apply Hjobs.
  - intros k' r. destruct (decide (k' = k)) as [->|Hne]; [apply Hid|].
    destruct (Hother k' Hne) as [-> _]. apply Hids.
Qed.

Lemma synced_update h k st st' :
  synced h st →
  (∀ k', k' ≠ k → rules st' !! k' = rules st !! k'
                  ∧ job_handle st' k' = job_handle st k') →
  (∀ r, rules st' !! k = Some r → enabled r = true → schedulable h r = true →
        is_Some (job_handle st' k)) →
  synced h st'.
Proof.
  intros Hsync Hother Hat k' r. destruct (decide (k' = k)) as [->|Hne]; [apply Hat|].
  destruct (Hother k' Hne) as [-> ->]. apply Hsync.
Qed.

Lemma executeRule_state h w rule st :
  state_of (executeRule h w rule st) = st
  ∨ state_of (executeRule h w rule st)
    = saved w (with_rules <[rule_id rule := set_lastRunAt (new_Date w) rule]> st).
Proof.
  rewrite executeRule_run.
  destruct (getCampaigns w (accountId rule)) as [|[campaigns|]]; [by left| |by left].
  simpl. destruct (actions_run _ _ _ _ _) as [t [|]]; simpl; [by left|by right].
Qed.

Lemma runRule_run h w k st :
  runRule h w k st =
    match rules st !! k with
    | Some rule => executeRule h w rule st
    | None => ([], st, Normal tt)
    end.
Proof.
  unfold runRule, bind. simpl.
  destruct (rules st !! k) as [rule|]; [|reflexivity].
  destruct (executeRule h w rule st) as [[t st'] c]. reflexivity.
Qed.

Lemma perform_ok h w call st :
  jobs_ok st →
  rules_ok h st →
  match call with
  | AddRule _ => rules st !! new_id w = None
  | _ => True
  end →
  jobs_ok (perform h w call st)
  ∧ rules_ok h (perform h w call st)
  ∧ (is_stop call = false → synced h st → synced h (perform h w call st)).
Proof.
  intros Hjobs Hrules Hfresh. pose proof Hrules as [Hrj Hids].
  destruct call as [ruleData|k|k|k|account| |]; simpl.
  - (* addRule *)
    rewrite addRule_run. unfold state_of. simpl.
    set (rule := new_rule w ruleData).
    set (st1 := saved w (with_rules <[rule_id rule := rule]> st)).
    assert (Hs1 : same_jobs st st1).
    { apply same_jobs_saved_with_rules. }
    assert (Hr1 : rules st1 = <[new_id w := rule]> (rules st))
      by (unfold st1; rewrite rules_saved; reflexivity).
    assert (Hnone : job_handle st (new_id w) = None).
    { destruct (job_handle st (new_id w)) as [hd|] eqn:E; [|done].
      destruct (Hrj _ _ E) as (r & Hr & _). congruence. }
    unfold added. fold rule. fold st1.
    assert (Hrid : rule_id rule = new_id w) by reflexivity.
    destruct (enabled rule) eqn:Hen.
    + split; [apply jobs_ok_scheduled; by eapply same_jobs_ok|].
      split; [|intros _ Hsync].
      * apply (rules_ok_update h (new_id w) st); [done| | |].
        -- intros k' Hne. rewrite rules_scheduled, Hr1, lookup_insert_ne by done.
           rewrite job_handle_scheduled.
           rewrite decide_False by (rewrite Hrid; done).
           by rewrite (same_jobs_job_handle st st1).
        -- intros hd. rewrite job_handle_scheduled, rules_scheduled, Hr1.
           rewrite decide_True by done. rewrite lookup_insert_eq, Hen. simpl.
           destruct (schedulable h rule) eqn:Hsch; [|done]. intros _. by exists rule.
        -- intros r. rewrite rules_scheduled, Hr1, lookup_insert_eq. by intros [= <-].
      * apply (synced_update h (new_id w) st); [done| |].
        -- intros k' Hne. rewrite rules_scheduled, Hr1, lookup_insert_ne by done.
           rewrite job_handle_scheduled.
           rewrite decide_False by (rewrite Hrid; done).
           by rewrite (same_jobs_job_handle st st1).
        -- intros r. rewrite rules_scheduled, Hr1, lookup_insert_eq.
           intros [= <-] _ Hsch. rewrite job_handle_scheduled.
           rewrite decide_True by done. rewrite Hen, Hsch. done.
    + split; [by eapply same_jobs_ok|]. split; [|intros _ Hsync].
      * apply (rules_ok_update h (new_id w) st); [done| | |].
        -- intros k' Hne. rewrite Hr1, lookup_insert_ne by done.
           by rewrite (same_jobs_job_handle st st1).
        -- intros hd. rewrite (same_jobs_job_handle st st1), Hnone by done. done.
        -- intros r. rewrite Hr1, lookup_insert_eq. by intros [= <-].
      * apply (synced_update h (new_id w) st); [done| |].
        -- intros k' Hne. rewrite Hr1, lookup_insert_ne by done.
           by rewrite (same_jobs_job_handle st st1).
        -- intros r. rewrite Hr1, lookup_insert_eq. intros [= <-]. congruence.
  - (* removeRule *)
    rewrite removeRule_run. unfold state_of. simpl.
    set (st1 := saved w (with_rules (delete k) (unscheduled k st))).
    assert (Hs1 : same_jobs (unscheduled k st) st1).
    { apply same_jobs_saved_with_rules. }
    assert (Hr1 : rules st1 = delete k (rules st))
      by (unfold st1; rewrite rules_saved; reflexivity).
    assert (Hj1 : ∀ k', job_handle st1 k' = if decide (k' = k) then None
                                            else job_handle st k').
    { intros k'. rewrite (same_jobs_job_handle _ _ k' Hs1).
      apply job_handle_unscheduled. }
    split; [eapply same_jobs_ok; [done|]; by apply jobs_ok_unscheduled|].
    split; [|intros _ Hsync].
    + apply (rules_ok_update h k st); [done| | |].
      * intros k' Hne. rewrite Hr1, lookup_delete_ne, Hj1 by done.
        by rewrite decide_False.
      * intros hd. rewrite Hj1, decide_True by done. done.
      * intros r. rewrite Hr1, lookup_delete_eq. done.
    + apply (synced_update h k st); [done| |].
      * intros k' Hne. rewrite Hr1, lookup_delete_ne, Hj1 by done.
        by rewrite decide_False.
      * intros r. rewrite Hr1, lookup_delete_eq. done.
  - (* toggleRule *)
    rewrite toggleRule_run.
    destruct (rules st !! k) as [rule0|] eqn:Hk; [|done].
    unfold state_of. simpl.
    set (rule := set_enabled (negb (enabled rule0)) rule0).
    set (st1 := saved w (with_rules <[k := rule]> st)).
    assert (Hs1 : same_jobs st st1).
    { apply same_jobs_saved_with_rules. }
    assert (Hr1 : rules st1 = <[k := rule]> (rules st))
      by (unfold st1; rewrite rules_saved; reflexivity).
    assert (Hrid : rule_id rule = k) by (apply (Hids k rule0 Hk)).
    assert (Hj : ∀ k', job_handle
                     (if negb (enabled rule0) then scheduled h rule st1
                      else unscheduled k st1) k' =
                   if decide (k' = k)
                   then (if negb (enabled rule0) && schedulable h rule
                         then Some (next_handle st) else None)
                   else job_handle st k').
    { intros k'. destruct (enabled rule0) eqn:Hen; simpl.
      - rewrite job_handle_unscheduled, (same_jobs_job_handle st st1) by done.
        reflexivity.
      - rewrite job_handle_scheduled, Hrid, (same_jobs_job_handle st st1) by done.
        simpl. destruct Hs1 as (_ & _ & _ & ->). reflexivity. }
    assert (Hr : rules (if negb (enabled rule0) then scheduled h rule st1
                        else unscheduled k st1) = <[k := rule]> (rules st)).
    { destruct (negb (enabled rule0)); [rewrite rules_scheduled|]; exact Hr1. }
    split.
    { destruct (negb (enabled rule0));
        [apply jobs_ok_scheduled|apply jobs_ok_unscheduled]; by eapply same_jobs_ok. }
    split; [|intros _ Hsync].
    + apply (rules_ok_update h k st); [done| | |].
      * intros k' Hne. rewrite Hr, Hj, lookup_insert_ne, decide_False by done. done.
      * intros hd. rewrite Hr, Hj, lookup_insert_eq, decide_True by done.
        destruct (negb (enabled rule0)) eqn:Hen; simpl; [|done].
        destruct (schedulable h rule) eqn:Hsch; [|done].
        intros _. exists rule. split; [done|]. split; [reflexivity|done].
      * intros r. rewrite Hr, lookup_insert_eq. by intros [= <-].
    + apply (synced_update h k st); [done| |].
      * intros k' Hne. rewrite Hr, Hj, lookup_insert_ne, decide_False by done. done.
      * intros r. rewrite Hr, Hj, lookup_insert_eq, decide_True by done.
        intros [= <-] Hen Hsch. simpl in Hen. rewrite Hen, Hsch. done.
  - (* runRule *)
    rewrite runRule_run.
    destruct (rules st !! k) as [rule|] eqn:Hk; [|done].
    assert (Hrid : rule_id rule = k) by (apply (Hids k rule Hk)).
    destruct (executeRule_state h w rule st) as [->| ->]; [done|].
    rewrite Hrid.
    set (st1 := saved w (with_rules <[k := set_lastRunAt (new_Date w) rule]> st)).
    assert (Hs1 : same_jobs st st1).
    { apply same_jobs_saved_with_rules. }
    assert (Hr1 : rules st1 = <[k := set_lastRunAt (new_Date w) rule]> (rules st))
      by (unfold st1; rewrite rules_saved; reflexivity).
    split; [by eapply same_jobs_ok|]. split; [|intros _ Hsync].
    + apply (rules_ok_update h k st); [done| | |].
      * intros k' Hne. rewrite Hr1, lookup_insert_ne by done.
        by rewrite (same_jobs_job_handle st st1).
      * intros hd. rewrite (same_jobs_job_handle st st1) by done. intros Hjh.
        destruct (Hrj _ _ Hjh) as (r & Hr & Hen & Hsch).
        rewrite Hk in Hr. injection Hr as <-.
        rewrite Hr1, lookup_insert_eq. eexists. split; [done|]. done.
      * intros r. rewrite Hr1, lookup_insert_eq. by intros [= <-].
    + apply (synced_update h k st); [done| |].
      * intros k' Hne. rewrite Hr1, lookup_insert_ne by done.
        by rewrite (same_jobs_job_handle st st1).
      * intros r. rewrite Hr1, lookup_insert_eq. intros [= <-] Hen Hsch.
        rewrite (same_jobs_job_handle st st1) by done.
        by apply (Hsync k rule).
  - done.
  - done.
  - (* stop *)
    rewrite stop_run. unfold state_of. simpl.
    split; [by apply jobs_ok_stopped|]. split; [|done].
    destruct (stopped_fields st) as (Hr & _). split.
    + intros k hd. rewrite job_handle_stopped. done.
    + intros k r. rewrite Hr. apply Hids.
Qed.

Lemma perform_all_ok h calls st :
  jobs_ok st →
  rules_ok h st →
  fresh_ids h calls st →
  jobs_ok (perform_all h calls st)
  ∧ rules_ok h (perform_all h calls st)
  ∧ (never_stopped calls = true → synced h st → synced h (perform_all h calls st)).
Proof.
  revert st. induction calls as [|[w call] calls IH]; intros st Hjobs Hrules Hfresh.
  - done.
  - simpl in *. destruct Hfresh as [Hnew Hrest].
    destruct (perform_ok h w call st Hjobs Hrules) as (Hj & Hr & Hs).
    { by destruct call. }
    destruct (IH _ Hj Hr Hrest) as (Hj' & Hr' & Hs').
    split; [done|]. split; [done|].
    intros Hnever Hsync. apply andb_true_iff in Hnever as [Hcall Hcalls].
    apply Hs'; [done|]. apply Hs; [|done]. by apply negb_true_iff.
Qed.

Lemma reachable_ok h slack d calls :
  fresh_ids h calls (started h slack d) →
  let st := perform_all h calls (started h slack d) in
  jobs_ok st ∧ rules_ok h st ∧ (never_stopped calls = true → synced h st).
Proof.
  intros Hfresh. destruct (started_ok h slack d) as (Hj & Hr & Hs).
  destruct (perform_all_ok h calls _ Hj Hr Hfresh) as (Hj' & Hr' & Hs').
  simpl. split; [done|]. split; [done|]. intros Hnever. by apply Hs'.
Qed.

Lemma live_job_handle st k hd :
  jobs_ok st → live_job st k hd ↔ job_handle st k = Some hd.
Proof. intros Hok. apply (jobs_armed _ Hok). Qed.

Lemma unscheduled_no_job st k :
  job_handle st k = None → unscheduled k st = st.
Proof.
  unfold job_handle, unscheduled. intros Hnone.
  destruct (cronJobs st !! k) as [job|] eqn:Hc; [done|].
  destruct (intervalJobs st !! k) as [job|] eqn:Hi; [done|].
  rewrite !delete_id by done. destruct st; reflexivity.
Qed.




(** *** Toggling twice *)






(** * Further properties of the engine *)

Lemma reachable_inv h st : reachable h st → jobs_ok st ∧ rules_ok h st.
Proof.
  intros (slack & d & calls & Hfresh & ->).
  destruct (reachable_ok h slack d calls Hfresh) as (Hj & Hr & _). done.
Qed.

Lemma reachable_started h slack d : reachable h (started h slack d).
Proof. exists slack, d, []. done. Qed.

Lemma no_job_without_rule h st k :
  rules_ok h st → rules st !! k = None → job_handle st k = None.
Proof.
  intros Hr Hk. destruct (job_handle st k) as [hd|] eqn:E; [|done].
  destruct (rules_jobs h st Hr k hd E) as (r & Hr' & _). congruence.
Qed.

(** ** [removeRule] *)

(** X1: in a reachable state, [removeRule(id)] completes normally, deletes
    the rule of that id from the map and leaves no live job for it; the
    rules and live jobs of every other id are untouched.  For an id that
    is not stored, the rule map and the armed timers are left as they
    were. *)
Theorem removeRule_removes_rule_and_job (h : Host) (w : World) (k : string)
    (st : Engine) :
  reachable h st →
  ∃ tr st',
    removeRule w k st = (tr, st', Normal tt)
    ∧ rules st' = delete k (rules st)
    ∧ (∀ hd, ¬ live_job st' k hd)
    ∧ (∀ k' hd, k' ≠ k → live_job st' k' hd ↔ live_job st k' hd)
    ∧ (rules st !! k = None → rules st' = rules st ∧ armed st' = armed st).
Proof.
  intros Hreach. destruct (reachable_inv h st Hreach) as [Hj Hr].
  eexists _, _. split; [apply removeRule_run|].
  assert (Ha : armed (saved w (with_rules (delete k) (unscheduled k st)))
               = armed (unscheduled k st)).
  { unfold saved. destruct (writeFileSync w); reflexivity. }
  rewrite rules_saved. unfold live_job. rewrite Ha.
  split; [reflexivity|]. split; [|split].
  - intros hd Hl. apply armed_unscheduled in Hl; [|done]. by destruct Hl.
  - intros k' hd Hne. rewrite armed_unscheduled by done. tauto.
  - intros Hk. split; [simpl; by apply delete_id|].
    rewrite unscheduled_no_job; [done|]. by eapply no_job_without_rule.
Qed.

Lemma removeRule_removes_rule_and_job_witness :
  let w := Sample.world [] ∅ 1700000000000 in
  let ruleData :=
    Sample.rule_data true (Sample.on_threshold "spend" "gt" 100 5)
      Sample.no_conditions [Sample.act "pause"] in
  let st := perform_all Sample.host [(w, AddRule ruleData)]
              (started Sample.host false Missing) in
  ∃ tr st',
    removeRule w (new_id w) st = (tr, st', Normal tt)
    ∧ rules st' = delete (new_id w) (rules st)
    ∧ ∀ hd, ¬ live_job st' (new_id w) hd.
Proof.
  intros w ruleData st.
  assert (Hreach : reachable Sample.host st).
  { exists false, Missing, [(w, AddRule ruleData)]. split; [|reflexivity].
    vm_compute. auto. }
  destruct (removeRule_removes_rule_and_job Sample.host w (new_id w) st Hreach)
    as (tr & st' & Hrun & Hrules & Hnone & _).
  exists tr, st'. split; [exact Hrun|]. split; [exact Hrules|exact Hnone].
Defined.

(** ** [stop] *)

Lemma values_empty {V} : values (∅ : gmap string V) = [].
Proof. unfold values. rewrite map_to_list_empty. reflexivity. Qed.

Lemma stopped_stopped st : stopped (stopped st) = stopped st.
Proof.
  unfold stopped at 1. simpl. rewrite !values_empty. reflexivity.
Qed.

(** X2: in a reachable state, [stop] completes normally without a trace,
    leaves no live job for any rule and both job tables empty, and keeps
    the rule map and the data file; a second [stop] changes nothing. *)
Theorem stop_cancels_every_job (h : Host) (st : Engine) :
  reachable h st →
  ∃ st',
    stop st = ([], st', Normal tt)
    ∧ (∀ k hd, ¬ live_job st' k hd)
    ∧ cronJobs st' = ∅
    ∧ intervalJobs st' = ∅
    ∧ rules st' = rules st
    ∧ dataFile st' = dataFile st
    ∧ stop st' = ([], st', Normal tt).
Proof.
  intros Hreach. destruct (reachable_inv h st Hreach) as [Hj Hr].
  exists (stopped st). split; [apply stop_run|].
  pose proof (jobs_ok_stopped st Hj) as Hj'.
  destruct (stopped_fields st) as (Hrules & Hc & Hi & _).
  split; [|split; [done|split; [done|split; [done|split]]]].
  - intros k hd Hl. apply live_job_handle in Hl; [|done].
    rewrite job_handle_stopped in Hl. done.
  - unfold stopped. simpl.
    destruct (foldl_with_armed task_handle (values (cronJobs st)) st)
      as (_ & _ & _ & _ & Hd & _).
    destruct (foldl_with_armed timeout_handle (values (intervalJobs st))
                (foldl (λ s job, with_armed (delete (task_handle job)) s) st
                   (values (cronJobs st))))
      as (_ & _ & _ & _ & Hd' & _).
    congruence.
  - rewrite stop_run, stopped_stopped. reflexivity.
Qed.

Lemma stop_cancels_every_job_witness :
  let w := Sample.world [] ∅ 1700000000000 in
  let ruleData :=
    Sample.rule_data true (Sample.on_schedule "0 9 * * *")
      Sample.no_conditions [Sample.act "pause"] in
  let st := perform_all Sample.host [(w, AddRule ruleData)]
              (started Sample.host false Missing) in
  live_job st (new_id w) O
  ∧ ∃ st', stop st = ([], st', Normal tt) ∧ ∀ k hd, ¬ live_job st' k hd.
Proof.
  intros w ruleData st. split; [vm_compute; reflexivity|].
  assert (Hreach : reachable Sample.host st).
  { exists false, Missing, [(w, AddRule ruleData)]. split; [|reflexivity].
    vm_compute. auto. }
  destruct (stop_cancels_every_job Sample.host st Hreach) as (st' & Hrun & Hnone & _).
  exists st'. split; [exact Hrun|exact Hnone].
Defined.

(** ** [start] and the data file *)











(** ** What a fire does to the campaigns *)

Lemma filter_is_update_action_events h w slack rule c a :
  length (List.filter is_update (action_events h w slack rule c a))
  = if updates_campaign a then 1%nat else 0%nat.
Proof.
  unfold action_events, updates_campaign.
  repeat case_bool_decide; simpl;
    repeat match goal with
           | |- context [if ?b then _ else _] => destruct b; simpl
           end; try reflexivity; congruence.
Qed.

Lemma filter_is_update_actions h w slack rule c (acts : list Action) :
  length (List.filter is_update (flat_map (action_events h w slack rule c) acts))
  = length (List.filter updates_campaign acts).
Proof.
  induction acts as [|a acts IH]; [reflexivity|].
  simpl. rewrite List.filter_app, length_app, IH, filter_is_update_action_events.
  destruct (updates_campaign a); reflexivity.
Qed.

Lemma filter_is_update_campaigns h w slack rule (cs : list Campaign) :
  length (List.filter is_update
            (flat_map (λ c, flat_map (action_events h w slack rule c) (actions rule)) cs))
  = (length cs * length (List.filter updates_campaign (actions rule)))%nat.
Proof.
  induction cs as [|c cs IH]; [reflexivity|].
  simpl. rewrite List.filter_app, length_app, IH, filter_is_update_actions.
  reflexivity.
Qed.

Lemma filter_is_update_evaluation h w rule campaigns :
  List.filter is_update (evaluation_events h w rule campaigns) = [].
Proof.
  unfold evaluation_events.
  destruct (bool_decide _ && str_truthy _); [|reflexivity].
  induction (List.filter (conditions_filter h rule) campaigns) as [|c cs IH];
    [reflexivity|].
  simpl. unfold metric_events at 1. simpl.
  destruct (getInsights w (camp_id c) _); simpl; exact IH.
Qed.

Lemma filter_is_update_save w : List.filter is_update (save_errors w) = [].
Proof. unfold save_errors. destruct (writeFileSync w); reflexivity. Qed.

(** X5: when the campaign list is fetched and no update is refused, a
    fire applies every action of the rule to every triggered campaign,
    campaign by campaign and in the order of the action list, and nothing
    else: the status updates sent to the Meta client number the triggered
    campaigns times the pause and resume actions of the rule. *)
Theorem fire_applies_every_action (h : Host) (w : World) (rule : AutomationRule)
    (st : Engine) (campaigns : list Campaign) :
  getCampaigns w (accountId rule) = Resolves (Some campaigns) →
  (∀ c a, c ∈ triggered_of h w rule campaigns → a ∈ actions rule →
          action_fails w c a = false) →
  ∃ tr st',
    executeRule h w rule st = (tr, st', Normal tt)
    ∧ tr = (CallGetCampaigns (accountId rule) ::
              evaluation_events h w rule campaigns
              ++ flat_map (λ c, flat_map (action_events h w (slackNotifier st) rule c)
                                  (actions rule))
                   (triggered_of h w rule campaigns)
              ++ save_errors w)%list
    ∧ length (List.filter is_update tr)
      = (length (triggered_of h w rule campaigns)
         * length (List.filter updates_campaign (actions rule)))%nat.
Proof.
  intros Hget Hok. rewrite executeRule_run, Hget. simpl.
  rewrite (actions_run_all_ok h w (slackNotifier st) rule _ Hok). simpl.
  eexists _, _. split; [reflexivity|]. split; [reflexivity|].
  simpl. rewrite !List.filter_app, !length_app.
  rewrite filter_is_update_evaluation, filter_is_update_save.
  rewrite filter_is_update_campaigns. simpl. lia.
Qed.

Lemma fire_applies_every_action_witness :
  let cs := [Sample.campaign "c1" "Summer promo sale" "ACTIVE";
             Sample.campaign "c2" "Summer Sale" "ACTIVE";
             Sample.campaign "c3" "Promo week" "PAUSED";
             Sample.campaign "c4" "Winter" "ACTIVE";
             Sample.campaign "c5" "Brand" "ACTIVE"] in
  let rule :=
    {| rule_id := "r1"; rule_name := "r"; accountId := "act_1"; enabled := true;
       trigger := Sample.on_schedule "0 9 * * *";
       conditions := {| campaignStatus := None;
                        campaignNameContains := Some "Promo";
                        minSpend := None; maxSpend := None |};
       actions := [Sample.act "pause"; Sample.act "notify"];
       createdAt := 0; lastRunAt := None |} in
  let w := Sample.world cs ∅ 0 in
  triggered_of Sample.host w rule cs
  = [Sample.campaign "c1" "Summer promo sale" "ACTIVE";
     Sample.campaign "c3" "Promo week" "PAUSED"]
  ∧ ∃ tr st',
      executeRule Sample.host w rule (new_engine true Missing) = (tr, st', Normal tt)
      ∧ length (List.filter is_update tr) = 2%nat.
Proof.
  intros cs rule w. split; [vm_compute; reflexivity|].
  destruct (fire_applies_every_action Sample.host w rule (new_engine true Missing) cs
              eq_refl)
    as (tr & st' & Hrun & _ & Hcount).
  { intros c a _ _. unfold action_fails.
    repeat case_bool_decide; reflexivity. }
  exists tr, st'. split; [exact Hrun|]. rewrite Hcount. vm_compute. reflexivity.
Defined.

Lemma run_until_elem {A} (events : A → list Event) (fails : A → bool)
    (l : list A) (e : Event) :
  e ∈ (run_until events fails l).1 → ∃ x, x ∈ l ∧ e ∈ events x.
Proof.
  induction l as [|y l IH]; simpl; [intros Hin; by apply elem_of_nil in Hin|].
  destruct (fails y).
  - simpl. intros Hin. exists y. split; [apply list_elem_of_here|done].
  - destruct (run_until events fails l) as [t failed]. simpl in *.
    intros Hin. apply elem_of_app in Hin as [Hin|Hin].
    + exists y. split; [apply list_elem_of_here|done].
    + destruct (IH Hin) as (x & Hx & He). exists x.
      split; [by apply list_elem_of_further|done].
Qed.

Lemma actions_run_elem h w slack rule triggered e :
  e ∈ (actions_run h w slack rule triggered).1 →
  ∃ c a, c ∈ triggered ∧ a ∈ actions rule ∧ e ∈ action_events h w slack rule c a.
Proof.
  unfold actions_run. intros Hin.
  apply run_until_elem in Hin as (c & Hc & Hin).
  unfold campaign_run in Hin. apply run_until_elem in Hin as (a & Ha & Hin).
  by exists c, a.
Qed.

Lemma evaluation_events_elem h w rule campaigns e :
  e ∈ evaluation_events h w rule campaigns →
  (∃ c f, e = CallGetInsights c f) ∨ (∃ c, e = ConsoleError (ErrCheckingInsights c)).
Proof.
  unfold evaluation_events.
  destruct (bool_decide _ && str_truthy _);
    [|intros Hin; by apply elem_of_nil in Hin].
  intros Hin. apply list_elem_of_In, in_flat_map in Hin as (c & _ & Hin).
  apply list_elem_of_In in Hin. unfold metric_events in Hin.
  apply elem_of_cons in Hin as [->|Hin]; [left; eauto|].
  destruct (getInsights w (camp_id c) _);
    [|by apply elem_of_nil in Hin].
  apply list_elem_of_singleton in Hin. right. eauto.
Qed.

(** The events of a fire: the fetch of the list, the metric checks, the
    events of an action on a triggered campaign, and error lines. *)
Lemma executeRule_trace_elem h w rule st e :
  e ∈ trace_of (executeRule h w rule st) →
  e = CallGetCampaigns (accountId rule)
  ∨ (∃ c f, e = CallGetInsights c f)
  ∨ (∃ line, e = ConsoleError line)
  ∨ ∃ campaigns c a,
      getCampaigns w (accountId rule) = Resolves (Some campaigns)
      ∧ c ∈ triggered_of h w rule campaigns
      ∧ a ∈ actions rule
      ∧ e ∈ action_events h w (slackNotifier st) rule c a.
Proof.
  rewrite executeRule_run.
  assert (Hfail : e ∈ [CallGetCampaigns (accountId rule);
                       ConsoleError (ErrExecutingRule (rule_name rule))] →
            e = CallGetCampaigns (accountId rule) ∨ (∃ c f, e = CallGetInsights c f)
            ∨ (∃ line, e = ConsoleError line)
            ∨ ∃ campaigns c a,
                getCampaigns w (accountId rule) = Resolves (Some campaigns)
                ∧ c ∈ triggered_of h w rule campaigns ∧ a ∈ actions rule
                ∧ e ∈ action_events h w (slackNotifier st) rule c a).
  { intros Hin. apply elem_of_cons in Hin as [->|Hin]; [by left|].
    apply list_elem_of_singleton in Hin. right. right. left. eauto. }
  destruct (getCampaigns w (accountId rule)) as [|[campaigns|]] eqn:Hget;
    [exact Hfail| |exact Hfail].
  simpl.
  assert (Hbody : e ∈ evaluation_events h w rule campaigns
                  ∨ e ∈ (actions_run h w (slackNotifier st) rule
                           (triggered_of h w rule campaigns)).1 →
            e = CallGetCampaigns (accountId rule) ∨ (∃ c f, e = CallGetInsights c f)
            ∨ (∃ line, e = ConsoleError line)
            ∨ ∃ campaigns0 c a,
                Resolves (Some campaigns) = Resolves (Some campaigns0)
                ∧ c ∈ triggered_of h w rule campaigns0 ∧ a ∈ actions rule
                ∧ e ∈ action_events h w (slackNotifier st) rule c a).
  { intros [Hin|Hin].
    - apply evaluation_events_elem in Hin as [(c & f & ->)|(c & ->)];
        [right; left; eauto|right; right; left; eauto].
    - apply actions_run_elem in Hin as (c & a & Hc & Ha & Hin).
      right. right. right. by exists campaigns, c, a. }
  destruct (actions_run h w (slackNotifier st) rule (triggered_of h w rule campaigns))
    as [t failed] eqn:Hrun.
  simpl in Hbody. destruct failed; unfold trace_of; simpl; intros Hin.
  - apply elem_of_cons in Hin as [->|Hin]; [by left|].
    apply elem_of_app in Hin as [Hin|Hin]; [apply Hbody; by left|].
    apply elem_of_app in Hin as [Hin|Hin]; [apply Hbody; by right|].
    apply list_elem_of_singleton in Hin. right. right. left. eauto.
  - apply elem_of_cons in Hin as [->|Hin]; [by left|].
    apply elem_of_app in Hin as [Hin|Hin]; [apply Hbody; by left|].
    apply elem_of_app in Hin as [Hin|Hin]; [apply Hbody; by right|].
    unfold save_errors in Hin. destruct (writeFileSync w);
      [by apply elem_of_nil in Hin|].
    apply list_elem_of_singleton in Hin. right. right. left. eauto.
Qed.

Lemma triggered_of_elem h w rule campaigns c :
  c ∈ triggered_of h w rule campaigns →
  c ∈ campaigns ∧ conditions_filter h rule c = true.
Proof.
  unfold triggered_of. destruct (bool_decide _ && str_truthy _); intros Hin.
  - apply elem_of_List_filter in Hin as [Hin _]. by apply elem_of_List_filter in Hin.
  - by apply elem_of_List_filter in Hin.
Qed.

Lemma action_events_update h w slack rule c a cid status :
  CallUpdateCampaign cid status ∈ action_events h w slack rule c a →
  cid = camp_id c
  ∧ ((action_type a = "pause" ∧ status = "PAUSED")
     ∨ (action_type a = "resume" ∧ status = "ACTIVE")).
Proof.
  unfold action_events. repeat case_bool_decide; intros Hin;
    repeat match goal with
           | H : context [if ?b then _ else _] |- _ => destruct b
           end;
    repeat (apply elem_of_cons in Hin as [Hin|Hin];
            [try discriminate; injection Hin as -> ->; tauto|]);
    by apply elem_of_nil in Hin.
Qed.

(** X6: a fire sends a status update only for a campaign of the fetched
    list that passes the conditions filter of the rule and is triggered,
    and only as the rule's actions say: PAUSED for a [pause] action of the
    rule, ACTIVE for a [resume] action. *)
Theorem fire_updates_only_triggered_campaigns (h : Host) (w : World)
    (rule : AutomationRule) (st : Engine) (cid status : string) :
  CallUpdateCampaign cid status ∈ trace_of (executeRule h w rule st) →
  ∃ campaigns c a,
    getCampaigns w (accountId rule) = Resolves (Some campaigns)
    ∧ c ∈ campaigns
    ∧ camp_id c = cid
    ∧ conditions_filter h rule c = true
    ∧ c ∈ triggered_of h w rule campaigns
    ∧ a ∈ actions rule
    ∧ ((action_type a = "pause" ∧ status = "PAUSED")
       ∨ (action_type a = "resume" ∧ status = "ACTIVE")).
Proof.
  intros Hin.
  apply executeRule_trace_elem in Hin
    as [Hin|[(c & f & Hin)|[(line & Hin)|(campaigns & c & a & Hget & Hc & Ha & Hin)]]];
    try discriminate.
  apply action_events_update in Hin as [-> Hkind].
  destruct (triggered_of_elem h w rule campaigns c Hc) as [Hcin Hfilter].
  exists campaigns, c, a. done.
Qed.

Lemma fire_updates_only_triggered_campaigns_witness :
  let c1 := Sample.campaign "c1" "Summer promo sale" "ACTIVE" in
  let rule := Sample.rule (Sample.on_schedule "0 9 * * *") [Sample.act "pause"] in
  let w := Sample.world [c1] ∅ 0 in
  ∃ campaigns c,
    getCampaigns w "act_1" = Resolves (Some campaigns)
    ∧ c ∈ campaigns ∧ camp_id c = "c1"
    ∧ conditions_filter Sample.host rule c = true.
Proof.
  intros c1 rule w.
  destruct (fire_updates_only_triggered_campaigns Sample.host w rule
              (new_engine false Missing) "c1" "PAUSED")
    as (campaigns & c & a & Hget & Hin & Hid & Hf & _).
  { vm_compute. apply list_elem_of_further, list_elem_of_here. }
  exists campaigns, c.
  split; [exact Hget|]. split; [exact Hin|]. split; [exact Hid|exact Hf].
Defined.

Lemma action_events_no_alert h w rule c a kind title message :
  SlackAlert kind title message ∉ action_events h w false rule c a.
Proof.
  unfold action_events. rewrite !andb_false_r. intros Hin.
  repeat case_bool_decide;
    repeat (apply elem_of_cons in Hin as [Hin|Hin]; [discriminate|]);
    by apply elem_of_nil in Hin.
Qed.

Lemma action_fails_not_update w c a :
  updates_campaign a = false → action_fails w c a = false.
Proof.
  unfold updates_campaign, action_fails. intros Hu.
  apply orb_false_iff in Hu as [Hp Hr]. rewrite Hp, Hr. reflexivity.
Qed.

(** X7: what a fire never does.  It arms and cancels no timer and leaves
    both job tables and every rule but its own as they were.  On an engine
    without a Slack notifier it sends no alert.  For a rule without a
    [pause] or [resume] action it sends no status update, and once the
    campaign list is fetched it cannot fail: the rule is stored with
    [lastRunAt] set. *)
Theorem fire_limits (h : Host) (w : World) (rule : AutomationRule) (st : Engine) :
  let fire := executeRule h w rule st in
  (same_jobs st (state_of fire)
   ∧ ∀ k, k ≠ rule_id rule → rules (state_of fire) !! k = rules st !! k)
  ∧ (slackNotifier st = false →
     ∀ kind title message, SlackAlert kind title message ∉ trace_of fire)
  ∧ ((∀ a, a ∈ actions rule → updates_campaign a = false) →
     (∀ cid status, CallUpdateCampaign cid status ∉ trace_of fire)
     ∧ ∀ campaigns, getCampaigns w (accountId rule) = Resolves (Some campaigns) →
         rules (state_of fire) !! rule_id rule
         = Some (set_lastRunAt (new_Date w) rule)).
Proof.
  intros fire. unfold fire. split; [|split].
  - destruct (executeRule_state h w rule st) as [-> | ->]; [done|].
    split; [apply same_jobs_saved_with_rules|].
    intros k Hne. rewrite rules_saved. simpl. by rewrite lookup_insert_ne.
  - intros Hslack kind title message Hin.
    apply executeRule_trace_elem in Hin
      as [Hin|[(c & f & Hin)|[(line & Hin)|(campaigns & c & a & _ & _ & _ & Hin)]]];
      try discriminate.
    rewrite Hslack in Hin. by apply action_events_no_alert in Hin.
  - intros Hnone. split.
    + intros cid status Hin.
      apply executeRule_trace_elem in Hin
        as [Hin|[(c & f & Hin)|[(line & Hin)|(campaigns & c & a & _ & _ & Ha & Hin)]]];
        try discriminate.
      apply action_events_update in Hin as [_ Hkind].
      specialize (Hnone a Ha). unfold updates_campaign in Hnone.
      apply orb_false_iff in Hnone as [Hp Hr].
      apply bool_decide_eq_false in Hp, Hr. tauto.
    + intros campaigns Hget. rewrite executeRule_run, Hget. simpl.
      rewrite actions_run_all_ok.
      * unfold state_of. simpl. rewrite rules_saved. simpl. apply lookup_insert_eq.
      * intros c a _ Ha. apply action_fails_not_update. by apply Hnone.
Qed.

(** ** The metric check of threshold rules *)

Lemma List_filter_none {A} (f : A → bool) (l : list A) :
  (∀ x, x ∈ l → f x = false) → List.filter f l = [].
Proof.
  induction l as [|x l IH]; intros Hf; [reflexivity|].
  simpl. rewrite (Hf x) by apply list_elem_of_here.
  apply IH. intros y Hy. apply Hf. by apply list_elem_of_further.
Qed.

Lemma checkThreshold_no_value v op : checkThreshold v op None = false.
Proof.
  unfold checkThreshold, num_gt. simpl.
  repeat case_bool_decide; destruct v; reflexivity.
Qed.

Lemma checkThreshold_other_operator v op threshold :
  op ≠ Some "gt" → op ≠ Some "lt" → op ≠ Some "eq" →
  checkThreshold v op threshold = false.
Proof.
  intros Hg Hl He. unfold checkThreshold.
  rewrite !bool_decide_false by done. reflexivity.
Qed.

(** X8: the edges of the metric check.  A threshold rule that names no
    metric (none, or the empty string) fetches no insights and triggers
    every campaign that passes the conditions filter.  A threshold rule
    that names a metric but has no threshold value, or an operator other
    than [gt], [lt] and [eq], triggers no campaign, whatever the
    insights. *)
Theorem threshold_rule_edges (h : Host) (w : World) (rule : AutomationRule)
    (campaigns : list Campaign) :
  (trigger_type (trigger rule) = "threshold" →
   str_truthy (metric (trigger rule)) = false →
   triggered_of h w rule campaigns = List.filter (conditions_filter h rule) campaigns
   ∧ evaluation_events h w rule campaigns = [])
  ∧ (trigger_type (trigger rule) = "threshold" →
     str_truthy (metric (trigger rule)) = true →
     value (trigger rule) = None
     ∨ (operator (trigger rule) ≠ Some "gt" ∧ operator (trigger rule) ≠ Some "lt"
        ∧ operator (trigger rule) ≠ Some "eq") →
     triggered_of h w rule campaigns = []).
Proof.
  split.
  - intros Ht Hm. unfold triggered_of, evaluation_events. rewrite Hm, andb_false_r.
    done.
  - intros Ht Hm Hbad. unfold triggered_of. rewrite Ht, Hm. simpl.
    apply List_filter_none. intros c _. unfold metric_hit.
    destruct (getInsights w (camp_id c) _) as [|[[|row rest]|]]; try reflexivity.
    destruct Hbad as [-> |(Hg & Hl & He)];
      [apply checkThreshold_no_value|by apply checkThreshold_other_operator].
Qed.

(** X9: for a threshold rule that names a metric, a campaign whose
    insights request is rejected is left out of the triggered campaigns and
    the failure is printed; every campaign of the list is triggered iff it
    passes the conditions filter and its own metric check, whatever
    happens to the others; the fire goes on, and when no update is refused
    the rule is stored with [lastRunAt] set. *)
Theorem metric_failure_is_isolated (h : Host) (w : World) (rule : AutomationRule)
    (field : string) (campaigns : list Campaign) (c : Campaign) (st : Engine) :
  trigger_type (trigger rule) = "threshold" →
  metric (trigger rule) = Some field →
  field ≠ "" →
  getCampaigns w (accountId rule) = Resolves (Some campaigns) →
  c ∈ campaigns →
  conditions_filter h rule c = true →
  getInsights w (camp_id c) field = Rejects →
  (c ∉ triggered_of h w rule campaigns)
  ∧ ConsoleError (ErrCheckingInsights (camp_id c))
      ∈ trace_of (executeRule h w rule st)
  ∧ (∀ c', c' ∈ triggered_of h w rule campaigns ↔
           c' ∈ campaigns ∧ conditions_filter h rule c' = true
           ∧ metric_hit h w rule field c' = true)
  ∧ ((∀ c' a, c' ∈ triggered_of h w rule campaigns → a ∈ actions rule →
              action_fails w c' a = false) →
     rules (state_of (executeRule h w rule st)) !! rule_id rule
     = Some (set_lastRunAt (new_Date w) rule)).
Proof.
  intros Ht Hm Hf Hget Hin Hcond Hrej.
  assert (Htruthy : str_truthy (metric (trigger rule)) = true).
  { rewrite Hm. simpl. by rewrite bool_decide_false. }
  assert (Htrig : ∀ c', c' ∈ triggered_of h w rule campaigns ↔
            c' ∈ campaigns ∧ conditions_filter h rule c' = true
            ∧ metric_hit h w rule field c' = true).
  { intros c'. unfold triggered_of. rewrite Ht, Htruthy, Hm. simpl.
    rewrite !elem_of_List_filter. tauto. }
  assert (Hev : ConsoleError (ErrCheckingInsights (camp_id c))
                ∈ evaluation_events h w rule campaigns).
  { unfold evaluation_events. rewrite Ht, Htruthy, Hm. simpl.
    apply list_elem_of_In, in_flat_map. exists c. split.
    - apply list_elem_of_In, elem_of_List_filter. done.
    - apply list_elem_of_In. unfold metric_events. rewrite Hrej.
      apply list_elem_of_further, list_elem_of_here. }
  split; [|split; [|split; [exact Htrig|]]].
  - intros Hc. apply Htrig in Hc as (_ & _ & Hhit).
    unfold metric_hit in Hhit. rewrite Hrej in Hhit. discriminate.
  - rewrite executeRule_run, Hget. simpl.
    destruct (actions_run h w (slackNotifier st) rule (triggered_of h w rule campaigns))
      as [t failed].
    destruct failed; unfold trace_of; simpl;
      apply list_elem_of_further, elem_of_app; by left.
  - intros Hok. rewrite executeRule_run, Hget. simpl.
    rewrite actions_run_all_ok by exact Hok.
    unfold state_of. simpl. rewrite rules_saved. simpl. apply lookup_insert_eq.
Qed.

Lemma metric_failure_is_isolated_witness :
  let c1 := Sample.campaign "c1" "Summer promo sale" "ACTIVE" in
  let c2 := Sample.campaign "c2" "Summer Sale" "ACTIVE" in
  let rule := Sample.rule (Sample.on_threshold "spend" "gt" 100 5)
                [Sample.act "pause"] in
  let w :=
    {| getCampaigns := λ _, Resolves (Some [c1; c2]);
       getInsights := λ cid _,
         if bool_decide (cid = "c1") then Rejects
         else Resolves (Some [{["spend" := "150"]}]);
       updateCampaign := λ _ _, true; writeFileSync := true;
       Date_now := 0; new_Date := 0; Math_random := "k3x9q0a1z" |} in
  (c1 ∉ triggered_of Sample.host w rule [c1; c2])
  ∧ c2 ∈ triggered_of Sample.host w rule [c1; c2].
Proof.
  intros c1 c2 rule w.
  destruct (metric_failure_is_isolated Sample.host w rule "spend" [c1; c2] c1
              (new_engine false Missing) eq_refl eq_refl ltac:(discriminate)
              eq_refl ltac:(apply list_elem_of_here) eq_refl eq_refl)
    as (Hout & _ & Hiff & _).
  split; [exact Hout|]. apply Hiff.
  split; [apply list_elem_of_further, list_elem_of_here|].
  split; vm_compute; reflexivity.
Defined.

(** ** The name filter *)

Lemma append_cons (c : ascii) (s t : string) : String c s ++ t = String c (s ++ t).
Proof. reflexivity. Qed.

Lemma append_empty (t : string) : "" ++ t = t.
Proof. reflexivity. Qed.

Lemma prefix_spec (sub s : string) :
  String.prefix sub s = true ↔ ∃ post, s = sub ++ post.
Proof.
  revert s. induction sub as [|a sub IH]; intros s.
  - destruct s; simpl; (split; [intros _; eexists; reflexivity|done]).
  - destruct s as [|b s]; simpl.
    + split; [done|]. intros [post Hp]. rewrite append_cons in Hp. discriminate.
    + destruct (ascii_dec a b) as [->|Hne].
      * rewrite IH. split; intros [post Hp]; exists post;
          rewrite append_cons in *; congruence.
      * split; [done|]. intros [post Hp]. rewrite append_cons in Hp. congruence.
Qed.

Lemma includes_spec (s sub : string) :
  includes s sub = true ↔ ∃ pre post, s = pre ++ sub ++ post.
Proof.
  induction s as [|c s IH].
  - change (includes "" sub) with (String.prefix sub "" || false).
    rewrite orb_false_r, prefix_spec. split.
    + intros [post Hp]. by exists "", post.
    + intros (pre & post & Hp). destruct pre; [by exists post|].
      rewrite append_cons in Hp. discriminate.
  - change (includes (String c s) sub)
      with (String.prefix sub (String c s) || includes s sub).
    rewrite orb_true_iff, prefix_spec, IH. split.
    + intros [[post Hp]|(pre & post & Hp)].
      * by exists "", post.
      * exists (String c pre), post. rewrite append_cons. by rewrite Hp.
    + intros (pre & post & Hp). destruct pre as [|c' pre].
      * left. by exists post.
      * right. exists pre, post. rewrite append_cons in Hp. congruence.
Qed.

(** X10: for a rule that names a non-empty substring, a campaign that the
    status filter lets through passes the conditions filter iff it has a
    name and the lowercased substring occurs, as a run of consecutive
    characters, in the lowercased name; a campaign without a name does not
    pass. *)
Theorem name_filter_is_substring_match (h : Host) (rule : AutomationRule)
    (campaign : Campaign) (sub : string) :
  campaignNameContains (conditions rule) = Some sub →
  sub ≠ "" →
  status_rejects rule campaign = false →
  conditions_filter h rule campaign = true ↔
    ∃ n pre post,
      camp_name campaign = Some n
      ∧ toLowerCase h n = pre ++ toLowerCase h sub ++ post.
Proof.
  intros Hsub Hne Hstatus. unfold conditions_filter, name_rejects.
  rewrite Hstatus, Hsub. simpl. rewrite (bool_decide_false (sub = "")) by done.
  simpl. destruct (camp_name campaign) as [n|]; simpl.
  - destruct (includes (toLowerCase h n) (toLowerCase h sub)) eqn:E; simpl.
    + split; [intros _|done]. apply includes_spec in E as (pre & post & Hp).
      by exists n, pre, post.
    + split; [done|]. intros (n' & pre & post & [= <-] & Hp).
      assert (includes (toLowerCase h n) (toLowerCase h sub) = true)
        by (apply includes_spec; eauto).
      congruence.
  - split; [done|]. intros (n' & pre & post & [=] & _).
Qed.

Lemma name_filter_is_substring_match_witness :
  let rule :=
    {| rule_id := "r1"; rule_name := "r"; accountId := "act_1"; enabled := true;
       trigger := Sample.on_schedule "0 9 * * *";
       conditions := {| campaignStatus := None;
                        campaignNameContains := Some "Promo";
                        minSpend := None; maxSpend := None |};
       actions := [Sample.act "pause"]; createdAt := 0; lastRunAt := None |} in
  conditions_filter Sample.host rule
    (Sample.campaign "c1" "Summer promo sale" "ACTIVE") = true
  ∧ conditions_filter Sample.host rule
      (Sample.campaign "c2" "Summer Sale" "ACTIVE") = false.
Proof.
  intros rule. split; [|reflexivity].
  apply (name_filter_is_substring_match Sample.host rule
           (Sample.campaign "c1" "Summer promo sale" "ACTIVE") "Promo"
           eq_refl ltac:(discriminate) eq_refl).
  exists "Summer promo sale", "summer ", " sale". split; reflexivity.
Defined.

(** ** [addRule] *)

(** X11: in a reachable state, an [addRule] that draws an unused id
    returns that id, which starts with [rule_], and adds the one rule to
    the map; the live jobs of the other rules are untouched, and the new
    rule has a live job, on a new timer, iff it is enabled and its trigger
    can be scheduled. *)
Theorem addRule_adds_one_rule (h : Host) (w : World) (ruleData : RuleData)
    (st : Engine) :
  reachable h st →
  rules st !! new_id w = None →
  ∃ tr st',
    addRule h w ruleData st = (tr, st', Normal (new_id w))
    ∧ String.prefix "rule_" (new_id w) = true
    ∧ rules st' = <[new_id w := new_rule w ruleData]> (rules st)
    ∧ (∀ k hd, k ≠ new_id w → live_job st' k hd ↔ live_job st k hd)
    ∧ (∀ hd, live_job st' (new_id w) hd ↔
             data_enabled ruleData = true
             ∧ schedulable h (new_rule w ruleData) = true
             ∧ hd = next_handle st).
Proof.
  intros Hreach Hfresh. destruct (reachable_inv h st Hreach) as [Hj Hr].
  destruct (perform_ok h w (AddRule ruleData) st Hj Hr Hfresh) as (Hj' & _ & _).
  simpl in Hj'. rewrite addRule_run in Hj'. unfold state_of in Hj'. simpl in Hj'.
  eexists _, _. split; [apply addRule_run|].
  split; [apply prefix_spec; eexists; reflexivity|].
  set (rule := new_rule w ruleData) in *.
  set (st1 := saved w (with_rules <[rule_id rule := rule]> st)).
  assert (Hs1 : same_jobs st st1) by apply same_jobs_saved_with_rules.
  assert (Hnone : job_handle st (new_id w) = None)
    by (by eapply no_job_without_rule).
  assert (Hjh : ∀ k, job_handle (added h w ruleData st) k =
            if decide (k = new_id w)
            then (if data_enabled ruleData && schedulable h rule
                  then Some (next_handle st) else None)
            else job_handle st k).
  { intros k. unfold added. fold rule. fold st1.
    change (enabled rule) with (data_enabled ruleData).
    destruct (data_enabled ruleData) eqn:Hen.
    - rewrite job_handle_scheduled. change (rule_id rule) with (new_id w).
      change (enabled rule) with (data_enabled ruleData). rewrite Hen.
      rewrite (same_jobs_job_handle st st1) by done.
      destruct Hs1 as (_ & _ & _ & ->). reflexivity.
    - rewrite (same_jobs_job_handle st st1) by done. simpl.
      destruct (decide (k = new_id w)) as [->|]; [exact Hnone|reflexivity]. }
  split; [|split].
  - unfold added. fold rule. fold st1.
    destruct (enabled rule); rewrite ?rules_scheduled; unfold st1;
      rewrite rules_saved; reflexivity.
  - intros k hd Hne. rewrite !live_job_handle by done.
    rewrite Hjh, decide_False by done. reflexivity.
  - intros hd. rewrite live_job_handle by done.
    rewrite Hjh, decide_True by done.
    destruct (data_enabled ruleData), (schedulable h rule); simpl; split;
      try (intros [= <-]; done); try (intros (? & ? & ->); done);
      try done; intros (? & ? & ?); done.
Qed.

Lemma addRule_adds_one_rule_witness :
  let w := Sample.world [] ∅ 1700000000000 in
  let ruleData :=
    Sample.rule_data true (Sample.on_threshold "spend" "gt" 100 5)
      Sample.no_conditions [Sample.act "pause"] in
  ∃ tr st',
    addRule Sample.host w ruleData (started Sample.host false Missing)
    = (tr, st', Normal (new_id w))
    ∧ live_job st' (new_id w) O.
Proof.
  intros w ruleData.
  destruct (addRule_adds_one_rule Sample.host w ruleData
              (started Sample.host false Missing)
              (reachable_started Sample.host false Missing)
              ltac:(vm_compute; reflexivity))
    as (tr & st' & Hrun & _ & _ & _ & Hlive).
  exists tr, st'. split; [exact Hrun|]. apply Hlive.
  split; [reflexivity|]. split; vm_compute; reflexivity.
Defined.

(** ** Account ids with and without the [act_] prefix *)

Lemma length_append (s t : string) :
  String.length (s ++ t) = (String.length s + String.length t)%nat.
Proof.
  induction s as [|c s IH]; [reflexivity|].
  rewrite append_cons. simpl. by rewrite IH.
Qed.

Lemma append_neq_self (p s : string) : p ≠ "" → s ≠ p ++ s.
Proof.
  intros Hp Heq. apply (f_equal String.length) in Heq.
  rewrite length_append in Heq. destruct p; [done|]. simpl in Heq. lia.
Qed.

Lemma rules_for_elem account st rule :
  rule ∈ rules_for account st ↔
    (∃ k, rules st !! k = Some rule)
    ∧ (accountId rule = account ∨ accountId rule = "act_" ++ account).
Proof.
  unfold rules_for. simpl.
  rewrite elem_of_List_filter, elem_of_values.
  rewrite orb_true_iff, !bool_decide_eq_true. tauto.
Qed.

(** X12: the account id the insights route sends to the Meta client always
    starts with [act_], and formatting is idempotent.  A stored rule whose
    account id is the formatted form of [a] is among the rules
    [getRulesForAccount(a)] returns; but the match is one-sided: a rule
    stored under a bare id [a] is returned for [a] and never for
    [act_a]. *)
Theorem account_id_prefix_matching (a : string) (st : Engine) (k : string)
    (rule : AutomationRule) :
  rules st !! k = Some rule →
  String.prefix "act_" (formattedAccountId a) = true
  ∧ formattedAccountId (formattedAccountId a) = formattedAccountId a
  ∧ (accountId rule = formattedAccountId a → rule ∈ rules_for a st)
  ∧ (accountId rule = a →
     rule ∈ rules_for a st ∧ rule ∉ rules_for ("act_" ++ a) st).
Proof.
  intros Hk.
  assert (Hpre : String.prefix "act_" (formattedAccountId a) = true).
  { unfold formattedAccountId. destruct (String.prefix "act_" a) eqn:E; [exact E|].
    apply prefix_spec. by exists a. }
  split; [exact Hpre|]. split; [|split].
  - unfold formattedAccountId at 1. by rewrite Hpre.
  - intros Hacc. apply rules_for_elem. split; [by exists k|].
    rewrite Hacc. unfold formattedAccountId.
    destruct (String.prefix "act_" a); [by left|by right].
  - intros Hacc. split.
    + apply rules_for_elem. split; [by exists k|by left].
    + intros Hin. apply rules_for_elem in Hin as [_ [Hbad|Hbad]];
        rewrite Hacc in Hbad.
      * by apply (append_neq_self "act_" a).
      * apply (append_neq_self "act_act_" a); [done|].
        rewrite Hbad at 1. reflexivity.
Qed.

Lemma account_id_prefix_matching_witness :
  let w := Sample.world [] ∅ 1700000000000 in
  let ruleData :=
    {| data_name := "r"; data_accountId := "123"; data_enabled := false;
       data_trigger := Sample.on_schedule "0 9 * * *";
       data_conditions := Sample.no_conditions; data_actions := [];
       data_lastRunAt := None |} in
  let st := state_of (addRule Sample.host w ruleData (new_engine false Missing)) in
  new_rule w ruleData ∈ rules_for "123" st
  ∧ new_rule w ruleData ∉ rules_for "act_123" st.
Proof.
  intros w ruleData st.
  destruct (account_id_prefix_matching "123" st (new_id w) (new_rule w ruleData)
              ltac:(vm_compute; reflexivity))
    as (_ & _ & _ & Hbare).
  exact (Hbare eq_refl).
Defined.

(** * The web server *)

(** ** The session *)

Lemma session_after_snoc env reqs req :
  session_after env (reqs ++ [req])
  = (serve env (session_after env reqs) req).2.
Proof. unfold session_after. rewrite foldl_app. reflexivity. Qed.

Lemma session_stays env (post : list Request) :
  GetLogout ∉ post →
  foldl (λ authenticated req, (serve env authenticated req).2) true post = true.
Proof.
  induction post as [|req post IH]; intros Hno; [reflexivity|].
  assert (Hpost : GetLogout ∉ post)
    by (intros Hin; apply Hno; by apply list_elem_of_further).
  simpl. destruct req as [|password| |]; simpl.
  - by apply IH.
  - destruct (bool_decide _); by apply IH.
  - exfalso. apply Hno. apply list_elem_of_here.
  - by apply IH.
Qed.

(** X13: a page behind [requireAuth] is served iff the session flag is
    set, and is answered by a redirect to the login page otherwise.  After
    any sequence of requests of a new session the flag is set iff some
    login presented the correct password (the one of the environment, or
    [admin] when none or an empty one is configured) and no logout came
    after it; a login with a wrong password changes nothing. *)
Theorem session_is_authenticated_by_login (env : option string)
    (reqs : list Request) :
  (session_after env reqs = true ↔
     ∃ pre post,
       reqs = (pre ++ PostLogin (Some (correctPassword env)) :: post)%list
       ∧ GetLogout ∉ post)
  ∧ (∀ b, serve env b GetPage = if b then (Served, b) else (RedirectTo "/login", b))
  ∧ (∀ b password, password ≠ Some (correctPassword env) →
       (serve env b (PostLogin password)).2 = b)
  ∧ (str_truthy env = false → correctPassword env = "admin").
Proof.
  split; [|split; [|split]].
  - split.
    + induction reqs as [|req reqs IH] using rev_ind; [done|].
      rewrite session_after_snoc.
      assert (Hkeep : session_after env reqs = true → req ≠ GetLogout →
                ∃ pre post,
                  (reqs ++ [req])%list
                  = (pre ++ PostLogin (Some (correctPassword env)) :: post)%list
                  ∧ GetLogout ∉ post).
      { intros Hs Hne. destruct (IH Hs) as (pre & post & -> & Hno).
        exists pre, (post ++ [req])%list. split; [by rewrite <- app_assoc|].
        intros Hin. apply elem_of_app in Hin as [Hin|Hin]; [done|].
        apply list_elem_of_singleton in Hin. done. }
      destruct req as [|password| |]; simpl.
      * intros Hs. by apply Hkeep.
      * case_bool_decide as Hpw; simpl.
        -- intros _. subst password. exists reqs, []. split; [done|].
           apply not_elem_of_nil.
        -- intros Hs. by apply Hkeep.
      * done.
      * destruct (session_after env reqs) eqn:Hs; simpl; [|done].
        intros _. by apply Hkeep.
    + intros (pre & post & -> & Hno). unfold session_after.
      rewrite foldl_app. simpl. rewrite bool_decide_true by done. simpl.
      by apply session_stays.
  - intros []; reflexivity.
  - intros b password Hpw. simpl. by rewrite bool_decide_false.
  - intros Henv. unfold correctPassword. by rewrite Henv.
Qed.

(** ** The JSON routes *)



(** * The Slack notifier *)

Lemma slack_post_run what url payload answer :
  Slack.post what url payload answer =
    (Slack.Post url payload ::
       (if Slack.accepted answer then [] else [Slack.PrintError what]),
     Normal tt).
Proof. destruct answer as [|[] code]; reflexivity. Qed.

(** X16: [sendAlert] and [sendPerformanceReport] post exactly one request to
    the webhook and complete normally whatever comes back: when [fetch]
    rejects, or the response is not ok, they print one error line and throw
    nothing; when the response is ok they print no error. *)
Theorem slack_sends_never_throw (url now : string) (alert : Slack.Alert)
    (data : Slack.Report) (answer : Slack.Webhook) :
  (∃ payload errors,
     Slack.sendAlert url now alert answer
     = (Slack.Post url payload :: errors, Normal tt)
     ∧ (errors = [] ↔ Slack.accepted answer = true)
     ∧ (Slack.accepted answer = false →
        errors = [Slack.PrintError "Error sending Slack notification:"]))
  ∧ (∃ payload errors,
       Slack.sendPerformanceReport url now data answer
       = (Slack.Post url payload :: errors, Normal tt)
       ∧ (errors = [] ↔ Slack.accepted answer = true)
       ∧ (Slack.accepted answer = false →
          errors = [Slack.PrintError "Error sending Slack report:"])).
Proof.
  unfold Slack.sendAlert, Slack.sendPerformanceReport.
  rewrite !slack_post_run.
  split; eexists _, _; (split; [reflexivity|]);
    destruct (Slack.accepted answer); done.
Qed.

(** X17: the shape of what is posted.  An alert has a header, its message
    and a closing context block, and between them a fields block iff the
    alert carries at least one field: three blocks or four.  A report has
    three leading blocks and the context block, and a top-campaigns block
    iff at least one campaign is given; it does not depend on the
    [conversions] metric.  A non-empty custom colour is the colour of an
    alert; without one, alerts of type [alert] are orange and alerts of
    type [action] green, the two types the engine sends. *)
Theorem slack_payload_shape (alert : Slack.Alert) (data : Slack.Report)
    (now : string) (other : option string) :
  length (Slack.alert_blocks alert now)
  = (match Slack.alert_fields alert with Some (_ :: _) => 4 | _ => 3 end)%nat
  ∧ Slack.block_type <$> head (Slack.alert_blocks alert now) = Some "header"
  ∧ last (Slack.alert_blocks alert now) = Some (Slack.context_block now)
  ∧ ((∃ b, b ∈ Slack.alert_blocks alert now ∧ Slack.block_fields b ≠ None) ↔
       ∃ f fs, Slack.alert_fields alert = Some (f :: fs))
  ∧ length (Slack.report_blocks data now)
    = (match Slack.topCampaigns data with Some (_ :: _) => 5 | _ => 4 end)%nat
  ∧ last (Slack.report_blocks data now) = Some (Slack.context_block now)
  ∧ Slack.report_blocks
      {| Slack.accountName := Slack.accountName data;
         Slack.period := Slack.period data;
         Slack.metrics :=
           {| Slack.spend := Slack.spend (Slack.metrics data);
              Slack.impressions := Slack.impressions (Slack.metrics data);
              Slack.clicks := Slack.clicks (Slack.metrics data);
              Slack.ctr := Slack.ctr (Slack.metrics data);
              Slack.conversions := other |};
         Slack.topCampaigns := Slack.topCampaigns data |} now
    = Slack.report_blocks data now
  ∧ (∀ c, Slack.alert_color alert = Some c → c ≠ "" →
          Slack.getColor (Slack.alert_type alert) (Slack.alert_color alert) = c)
  ∧ Slack.getColor "alert" None = "#FFA500"
  ∧ Slack.getColor "action" None = "#36A64F".
Proof.
  unfold Slack.alert_blocks, Slack.report_blocks.
  split_and!; try reflexivity.
  - by destruct (Slack.alert_fields alert) as [[|f fs]|].
  - by destruct (Slack.alert_fields alert) as [[|f fs]|].
  - destruct (Slack.alert_fields alert) as [[|f fs]|]; simpl.
    + split; [|by intros (f & fs & [=])]. intros (b & Hin & Hb).
      repeat (apply elem_of_cons in Hin as [->|Hin]; [done|]).
      by apply elem_of_nil in Hin.
    + split; [by eauto|]. intros _. eexists. split; [|shelve].
      apply list_elem_of_further, list_elem_of_further, list_elem_of_here.
      Unshelve. done.
    + split; [|by intros (f & fs & [=])]. intros (b & Hin & Hb).
      repeat (apply elem_of_cons in Hin as [->|Hin]; [done|]).
      by apply elem_of_nil in Hin.
  - by destruct (Slack.topCampaigns data) as [[|c cs]|].
  - by destruct (Slack.topCampaigns data) as [[|c cs]|].
  - intros c Hc Hne. unfold Slack.getColor. rewrite Hc. simpl.
    by rewrite bool_decide_false.
Qed.

(** * The job a trigger gets *)


